(** * Verification of scripts/preprocess_data.py

    A shallow embedding of the Bible data preprocessing script: the
    citation standardizer ([standardize_verse_ref] and its regular
    expression [verse_pattern]), the USFX text extractor and the
    cross-reference linker, followed by the properties of the program.

    Conventions of the embedding.
    - Python [str] values are modelled as [string]; the model covers
      ASCII text (code points below 128), on which [str.strip],
      [str.upper], [\s], [\d] and [int] behave as defined below.
    - Python [int] values are [Z].
    - [dict] is [gmap], [set] is [gset]; a [dict] whose iteration order
      matters is not used by the properties below.
    - The console output of the script is not modelled, except for the
      warning of the cross-reference stage. *)

From Stdlib Require Import ZArith Ascii String List Lia.
From Stdlib Require Import DecimalString DecimalFacts DecimalPos DecimalZ.
From stdpp Require Import base gmap strings list sorting.

Local Open Scope Z_scope.
#[local] Set Warnings "-clear-no-such-hyp,-register-all".

(* ================================================================== *)
(** * Python string primitives *)
(* ================================================================== *)

Module Py.

Definition code (c : ascii) : N := N_of_ascii c.

(** [str.isspace] on ASCII: TAB..CR, FS..US and the blank. *)
Definition is_space (c : ascii) : bool :=
  ((9 <=? code c) && (code c <=? 13) || (28 <=? code c) && (code c <=? 32))%N.

(** [\d] on ASCII. *)
Definition is_digit (c : ascii) : bool :=
  ((48 <=? code c) && (code c <=? 57))%N.

Definition is_lower (c : ascii) : bool :=
  ((97 <=? code c) && (code c <=? 122))%N.

Definition is_upper (c : ascii) : bool :=
  ((65 <=? code c) && (code c <=? 90))%N.

(** [[a-zA-Z]]. *)
Definition is_alpha (c : ascii) : bool := is_lower c || is_upper c.

Definition upper_char (c : ascii) : ascii :=
  if is_lower c then ascii_of_N (code c - 32) else c.

(** [s.upper()]. *)
Fixpoint upper (s : string) : string :=
  match s with
  | EmptyString => EmptyString
  | String c s' => String (upper_char c) (upper s')
  end.

(** Dropping the leading characters of a class. *)
Fixpoint lstrip_with (p : ascii → bool) (s : string) : string :=
  match s with
  | EmptyString => EmptyString
  | String c s' => if p c then lstrip_with p s' else s
  end.

(** Dropping the trailing characters of a class: a character goes
    when it is in the class and everything after it has gone. *)
Fixpoint rstrip_with (p : ascii → bool) (s : string) : string :=
  match s with
  | EmptyString => EmptyString
  | String c s' =>
      match rstrip_with p s' with
      | EmptyString => if p c then EmptyString else String c EmptyString
      | r => String c r
      end
  end.

(** [s.strip()]. *)
Definition strip (s : string) : string :=
  rstrip_with is_space (lstrip_with is_space s).

(** Truth value of a string: [if s:]. *)
Definition truthy (s : string) : bool :=
  match s with EmptyString => false | _ => true end.

(** Truth value of an optional string (an attribute that may be [None]). *)
Definition truthy_opt (o : option string) : bool :=
  match o with Some s => truthy s | None => false end.

(** [re.sub(r'\s+', ' ', s)]: every maximal run of white space becomes
    one blank.  [in_run] tells whether the previous character was white
    space. *)
Fixpoint collapse_ws_from (in_run : bool) (s : string) : string :=
  match s with
  | EmptyString => EmptyString
  | String c s' =>
      if is_space c
      then (if in_run then collapse_ws_from true s'
            else String " "%char (collapse_ws_from true s'))
      else String c (collapse_ws_from false s')
  end.

Definition collapse_ws (s : string) : string := collapse_ws_from false s.

(** [s.startswith(p)]. *)
Definition startswith (p s : string) : bool := String.prefix p s.

(** [s.split(sep)] for a one-character separator: [cur] holds the
    current field, reversed. *)
Fixpoint split_go (sep : ascii) (cur : string) (s : string) : list string :=
  match s with
  | EmptyString => [String.rev cur]
  | String c s' =>
      if Ascii.eqb c sep then String.rev cur :: split_go sep EmptyString s'
      else split_go sep (String c cur) s'
  end.

Definition split (sep : ascii) (s : string) : list string :=
  split_go sep EmptyString s.

(** ** [int(s)] *)

Definition digit_val (c : ascii) : Z := Z.of_N (code c) - 48.

(** The digits after the first one; an underscore may separate two
    digits, and [after_us] says that the previous character was one. *)
Fixpoint int_digits (acc : Z) (after_us : bool) (s : string) : option Z :=
  match s with
  | EmptyString => if after_us then None else Some acc
  | String c s' =>
      if is_digit c then int_digits (10 * acc + digit_val c) false s'
      else if Ascii.eqb c "_"%char
           then (if after_us then None else int_digits acc true s')
           else None
  end.

Definition int_unsigned (s : string) : option Z :=
  match s with
  | EmptyString => None
  | String c s' => if is_digit c then int_digits (digit_val c) false s' else None
  end.

(** The white space [int] skips around the digits: that of C's
    [isspace], which leaves out FS..US. *)
Definition is_c_space (c : ascii) : bool :=
  ((9 <=? code c) && (code c <=? 13) || (code c =? 32))%N.

(** [int(s)] on a string: [None] stands for [ValueError]. *)
Definition int_of_string (s : string) : option Z :=
  match rstrip_with is_c_space (lstrip_with is_c_space s) with
  | String "-"%char s' => Z.opp <$> int_unsigned s'
  | String "+"%char s' => int_unsigned s'
  | s' => int_unsigned s'
  end.

(** [int(x)] where [x] is an attribute value that may be [None]
    ([TypeError]); the script catches both errors together. *)
Definition int (x : option string) : option Z :=
  match x with
  | Some s => int_of_string s
  | None => None
  end.

(** [str(n)], as used by an f-string. *)
Definition str_of_int (n : Z) : string := NilZero.string_of_int (Z.to_int n).

End Py.

(* ================================================================== *)
(** * A backtracking matcher for the fragment of [re] the script uses *)
(* ================================================================== *)

Module Re.

(** Repetition is applied to character classes only, which is all
    [verse_pattern] needs. *)
Inductive re : Type :=
| Eps : re
| Chr : (ascii → bool) → re            (* one character of a class *)
| Star : (ascii → bool) → re           (* greedy [c*] *)
| Seq : re → re → re
| Alt : re → re → re                   (* [a|b], left first *)
| Group : nat → re → re                (* capturing group number n *)
| Bol : re                             (* [^], at the head of a pattern *)
| Eol : re.                            (* [$] *)

Definition Plus (p : ascii → bool) : re := Seq (Chr p) (Star p).
(** Greedy [r?]: try [r] first. *)
Definition Opt (r : re) : re := Alt r Eps.
Definition Lit (c : ascii) : re := Chr (Ascii.eqb c).

(** The first [n] characters of [s]. *)
Fixpoint take (n : nat) (s : string) : string :=
  match n, s with
  | S n', String c s' => String c (take n' s')
  | _, _ => EmptyString
  end.

Definition consumed (s s' : string) : string :=
  take (String.length s - String.length s') s.

Section matcher.
Context {R : Type}.

(** Greedy star over a class: take as many characters as possible,
    giving them back one at a time when the continuation fails. *)
Fixpoint star (p : ascii → bool) (k : string → option R) (s : string)
  : option R :=
  match s with
  | String c s' =>
      if p c then
        match star p k s' with
        | Some r => Some r
        | None => k s
        end
      else k s
  | EmptyString => k s
  end.

(** [run r s caps k]: match [r] at the front of [s]; [k] receives the
    rest of the input and the groups captured so far.  [None] means
    that every alternative failed. *)
Fixpoint run (r : re) (s : string) (caps : gmap nat string)
    (k : string → gmap nat string → option R) : option R :=
  match r with
  | Eps => k s caps
  | Chr p =>
      match s with
      | String c s' => if p c then k s' caps else None
      | EmptyString => None
      end
  | Star p => star p (λ s', k s' caps) s
  | Seq r1 r2 => run r1 s caps (λ s' caps', run r2 s' caps' k)
  | Alt r1 r2 =>
      match run r1 s caps k with
      | Some x => Some x
      | None => run r2 s caps k
      end
  | Group n r' =>
      run r' s caps (λ s' caps', k s' (<[n := consumed s s']> caps'))
  | Bol => k s caps
  | Eol =>
      match s with
      | EmptyString => k s caps
      | String c EmptyString => if Ascii.eqb c "010"%char then k s caps else None
      | _ => None
      end
  end.
End matcher.

(** [pattern.match(s)]: anchored at the start of [s]. *)
Definition match_ (r : re) (s : string) : option (gmap nat string) :=
  run r s ∅ (λ _ caps, Some caps).

(** [m.group(n)] of a group that took part in the match. *)
Definition group (n : nat) (m : gmap nat string) : string :=
  default EmptyString (m !! n).

End Re.

Infix ">>>" := Re.Seq (at level 62, right associativity).

(* ================================================================== *)
(** * Configuration of the script *)
(* ================================================================== *)

(** The elements of the set literal [PROTESTANT_CANON_CODES], in the
    order in which the literal lists them (Genesis to Revelation). *)
Definition canon_literal : list string :=
  [ "GEN"; "EXO"; "LEV"; "NUM"; "DEU"; "JOS"; "JDG"; "RUT"; "1SA"; "2SA";
    "1KI"; "2KI"; "1CH"; "2CH"; "EZR"; "NEH"; "EST"; "JOB"; "PSA"; "PRO";
    "ECC"; "SNG"; "ISA"; "JER"; "LAM"; "EZK"; "DAN"; "HOS"; "JOL"; "AMO";
    "OBA"; "JON"; "MIC"; "NAM"; "HAB"; "ZEP"; "HAG"; "ZEC"; "MAL"; "MAT";
    "MRK"; "LUK"; "JHN"; "ACT"; "ROM"; "1CO"; "2CO"; "GAL"; "EPH"; "PHP";
    "COL"; "1TH"; "2TH"; "1TI"; "2TI"; "TIT"; "PHM"; "HEB"; "JAS"; "1PE";
    "2PE"; "1JN"; "2JN"; "3JN"; "JUD"; "REV" ].

Definition PROTESTANT_CANON_CODES : gset string := list_to_set canon_literal.

(** The entries of the dict literal [ABBR_MAP], in source order. *)
Definition abbr_literal : list (string * string) :=
  [ ("Gen", "GEN"); ("Exod", "EXO"); ("Ex", "EXO"); ("Lev", "LEV");
    ("Num", "NUM"); ("Deut", "DEU");
    ("Josh", "JOS"); ("Judg", "JDG"); ("Jdgs", "JDG"); ("Ruth", "RUT");
    ("1 Sam", "1SA"); ("2 Sam", "2SA"); ("1Sam", "1SA"); ("2Sam", "2SA");
    ("1 Kgs", "1KI"); ("1Kgs", "1KI");
    ("2 Kgs", "2KI"); ("2Kgs", "2KI");
    ("1 Chr", "1CH"); ("1Chr", "1CH");
    ("2 Chr", "2CH"); ("2Chr", "2CH");
    ("Ezra", "EZR"); ("Neh", "NEH"); ("Esth", "EST"); ("Job", "JOB");
    ("Ps", "PSA"); ("Psa", "PSA");
    ("Prov", "PRO"); ("Eccl", "ECC"); ("Song", "SNG"); ("Isa", "ISA");
    ("Jer", "JER");
    ("Lam", "LAM"); ("Ezek", "EZK"); ("Dan", "DAN"); ("Hos", "HOS");
    ("Joel", "JOL");
    ("Amos", "AMO"); ("Obad", "OBA"); ("Jonah", "JON"); ("Mic", "MIC");
    ("Nah", "NAM");
    ("Hab", "HAB"); ("Zeph", "ZEP"); ("Hag", "HAG"); ("Zech", "ZEC");
    ("Mal", "MAL");
    ("Matt", "MAT"); ("Mark", "MRK"); ("Mk", "MRK"); ("Luke", "LUK");
    ("Lk", "LUK");
    ("John", "JHN"); ("Jn", "JHN");
    ("Acts", "ACT"); ("Rom", "ROM");
    ("1 Cor", "1CO"); ("1Cor", "1CO");
    ("2 Cor", "2CO"); ("2Cor", "2CO");
    ("Gal", "GAL"); ("Eph", "EPH"); ("Phil", "PHP"); ("Col", "COL");
    ("1 Thess", "1TH"); ("1Thess", "1TH");
    ("2 Thess", "2TH"); ("2Thess", "2TH");
    ("1 Tim", "1TI"); ("1Tim", "1TI");
    ("2 Tim", "2TI");
    ("Titus", "TIT"); ("Phlm", "PHM"); ("Heb", "HEB"); ("Jas", "JAS");
    ("1 Pet", "1PE"); ("1Pet", "1PE");
    ("2 Pet", "2PE"); ("2Pet", "2PE");
    ("1 John", "1JN"); ("1John", "1JN");
    ("2 John", "2JN");
    ("3 John", "3JN");
    ("Jude", "JUD"); ("Rev", "REV") ].

(** A dict literal: later entries override earlier ones. *)
Definition dict_of_literal (l : list (string * string)) : gmap string string :=
  fold_left (λ m kv, <[kv.1 := kv.2]> m) l ∅.

Definition ABBR_MAP : gmap string string := dict_of_literal abbr_literal.

(* ================================================================== *)
(** * Citation standardization *)
(* ================================================================== *)

(** [verse_pattern]:
    [^\s*(\d*\s*[a-zA-Z]+)\.?\s*(\d+)\.(\d+)(?:-\s*(?:\d+|[a-zA-Z]+\.?\s*\d+\.\d+))?\s*$] *)
Definition range_tail : Re.re :=
  Re.Lit "-" >>> Re.Star Py.is_space >>>
  Re.Alt (Re.Plus Py.is_digit)
         (Re.Plus Py.is_alpha >>> Re.Opt (Re.Lit ".") >>> Re.Star Py.is_space >>>
          Re.Plus Py.is_digit >>> Re.Lit "." >>> Re.Plus Py.is_digit).

Definition verse_pattern : Re.re :=
  Re.Bol >>> Re.Star Py.is_space >>>
  Re.Group 1 (Re.Star Py.is_digit >>> Re.Star Py.is_space >>> Re.Plus Py.is_alpha) >>>
  Re.Opt (Re.Lit ".") >>> Re.Star Py.is_space >>>
  Re.Group 2 (Re.Plus Py.is_digit) >>>
  Re.Lit "." >>>
  Re.Group 3 (Re.Plus Py.is_digit) >>>
  Re.Opt range_tail >>>
  Re.Star Py.is_space >>> Re.Eol.

(** The f-string ["{book} {chapter}:{verse}"]. *)
Definition verse_id (book chapter verse : string) : string :=
  book +:+ " " +:+ chapter +:+ ":" +:+ verse.

(** The part of [standardize_verse_ref] that follows a successful match
    of [verse_pattern]. *)
Definition resolve_book (book_part chapter verse : string)
    (local_abbr_map : gmap string string) (known_canon_abbrs_set : gset string)
  : option string :=
  let canon_abbr := local_abbr_map !! book_part in
  match canon_abbr with
  | Some ca =>
      if Py.truthy ca && bool_decide (ca ∈ known_canon_abbrs_set)
      then Some (verse_id ca chapter verse)
      else
        let upper_book_part := Py.upper book_part in
        if bool_decide (book_part ∈ known_canon_abbrs_set)
        then Some (verse_id book_part chapter verse)
        else if bool_decide (upper_book_part ∈ known_canon_abbrs_set)
        then Some (verse_id upper_book_part chapter verse)
        else None
  | None =>
      let upper_book_part := Py.upper book_part in
      if bool_decide (book_part ∈ known_canon_abbrs_set)
      then Some (verse_id book_part chapter verse)
      else if bool_decide (upper_book_part ∈ known_canon_abbrs_set)
      then Some (verse_id upper_book_part chapter verse)
      else None
  end.

(** [standardize_verse_ref]; [None] is Python's [None].  The debug
    counter only drives console output and is left out. *)
Definition standardize_verse_ref (ref_string : string)
    (local_abbr_map : gmap string string) (known_canon_abbrs_set : gset string)
  : option string :=
  match Re.match_ verse_pattern ref_string with
  | Some m =>
      let book_part := Py.strip (Re.group 1 m) in
      let chapter := Re.group 2 m in
      let verse := Re.group 3 m in
      resolve_book book_part chapter verse local_abbr_map known_canon_abbrs_set
  | None => None
  end.

(* ================================================================== *)
(** * The document tree ([xml.etree.ElementTree]) *)
(* ================================================================== *)

(** An [Element]: tag, attributes, text before the first child, text
    after the end tag, and children.  The default parser keeps neither
    comments nor processing instructions, so every node is an element
    and [hasattr(node, 'tag')] holds of every node. *)
Inductive Element : Type :=
  Elem (tag : string) (attrib : gmap string string)
       (text tail : option string) (children : list Element).

Definition tag (e : Element) : string :=
  match e with Elem t _ _ _ _ => t end.
Definition attrib (e : Element) : gmap string string :=
  match e with Elem _ a _ _ _ => a end.
Definition text (e : Element) : option string :=
  match e with Elem _ _ x _ _ => x end.
Definition tail (e : Element) : option string :=
  match e with Elem _ _ _ x _ => x end.
Definition children (e : Element) : list Element :=
  match e with Elem _ _ _ _ cs => cs end.

(** [e.get(key)]. *)
Definition get (key : string) (e : Element) : option string := attrib e !! key.

(** [e.iter()]: the element itself, then its descendants, in document
    order. *)
Fixpoint iter (e : Element) : list Element :=
  match e with
  | Elem _ _ _ _ cs =>
      e :: (fix iter_all (l : list Element) : list Element :=
              match l with
              | [] => []
              | c :: l' => iter c ++ iter_all l'
              end) cs
  end.

Definition has_tag (t : string) (e : Element) : bool := String.eqb (tag e) t.

(** [root.findall('.//book')]: the proper descendants with that tag. *)
Definition findall_descendants (t : string) (root : Element) : list Element :=
  List.filter (has_tag t) (List.tl (iter root)).

(** [root.findall('./book')]: the children with that tag. *)
Definition findall_children (t : string) (root : Element) : list Element :=
  List.filter (has_tag t) (children root).

(* ================================================================== *)
(** * Step 2: the text extractor *)
(* ================================================================== *)

(** The variables of the loop over the descendants of one block node,
    with the two that outlive it ([last_verse_in_chapter] and
    [bible_text_dict]). *)
Record VerseState : Type := mkVerseState {
  current_verse_num : Z;
  verse_text_buffer : string;
  collecting_text_for_verse : Z;
  last_verse_in_chapter : Z;
  bible_text_dict : gmap string string
}.

(** [f"{book_abbr} {current_chapter_num}:{n}"]. *)
Definition verse_key (book_abbr : string) (chapter n : Z) : string :=
  verse_id book_abbr (Py.str_of_int chapter) (Py.str_of_int n).

(** [re.sub(r'\s+', ' ', buffer).strip()]. *)
Definition clean_text (buffer : string) : string :=
  Py.strip (Py.collapse_ws buffer).

(** Storing the collected verse: nothing happens when no verse is being
    collected or when the cleaned text is empty. *)
Definition flush (book_abbr : string) (chapter : Z) (st : VerseState)
  : gmap string string :=
  if 0 <? collecting_text_for_verse st then
    let cleaned_text := clean_text (verse_text_buffer st) in
    if Py.truthy cleaned_text
    then <[verse_key book_abbr chapter (collecting_text_for_verse st) := cleaned_text]>
           (bible_text_dict st)
    else bible_text_dict st
  else bible_text_dict st.

(** [buffer += s.strip() + " "]. *)
Definition add_text (buffer s : string) : string :=
  buffer +:+ Py.strip s +:+ " ".

Definition inline_tags : list string := ["w"; "char"; "ref"; "bk"; "v"].

(** One iteration of the [while] loop over [nodes_to_process]. *)
Definition process_inner_node (book_abbr : string) (chapter : Z)
    (st : VerseState) (inner_node : Element) : VerseState :=
  if has_tag "v" inner_node then
    (* the [try] block: the conversion comes first, and an invalid id
       skips the rest of the block *)
    let st1 :=
      match Py.int (get "id" inner_node) with
      | Some n =>
          {| current_verse_num := n;
             verse_text_buffer := "";
             collecting_text_for_verse := n;
             last_verse_in_chapter := Z.max (last_verse_in_chapter st) n;
             bible_text_dict := flush book_abbr chapter st |}
      | None =>
          {| current_verse_num := current_verse_num st;
             verse_text_buffer := verse_text_buffer st;
             collecting_text_for_verse := 0;
             last_verse_in_chapter := last_verse_in_chapter st;
             bible_text_dict := bible_text_dict st |}
      end in
    match tail inner_node with
    | Some tl =>
        if Py.truthy tl && (0 <? collecting_text_for_verse st1)
        then {| current_verse_num := current_verse_num st1;
                verse_text_buffer := add_text (verse_text_buffer st1) tl;
                collecting_text_for_verse := collecting_text_for_verse st1;
                last_verse_in_chapter := last_verse_in_chapter st1;
                bible_text_dict := bible_text_dict st1 |}
        else st1
    | None => st1
    end
  else if has_tag "ve" inner_node then
    {| current_verse_num := current_verse_num st;
       verse_text_buffer := verse_text_buffer st;
       collecting_text_for_verse := 0;
       last_verse_in_chapter := last_verse_in_chapter st;
       bible_text_dict := flush book_abbr chapter st |}
  else if 0 <? collecting_text_for_verse st then
    let current_text :=
      match text inner_node with
      | Some tx =>
          if Py.truthy tx && has_tag "w" inner_node then Py.strip tx else ""
      | None => ""
      end in
    let buffer1 :=
      if Py.truthy current_text
      then verse_text_buffer st +:+ current_text +:+ " "
      else verse_text_buffer st in
    let buffer2 :=
      match tail inner_node with
      | Some tl =>
          if Py.truthy tl && bool_decide (tag inner_node ∈ inline_tags)
          then add_text buffer1 tl
          else buffer1
      | None => buffer1
      end in
    {| current_verse_num := current_verse_num st;
       verse_text_buffer := buffer2;
       collecting_text_for_verse := collecting_text_for_verse st;
       last_verse_in_chapter := last_verse_in_chapter st;
       bible_text_dict := bible_text_dict st |}
  else st.

(** The loop over all descendants of one non-chapter child of a book. *)
Definition process_block (book_abbr : string) (chapter : Z)
    (last_verse : Z) (dict : gmap string string) (block : Element)
  : VerseState :=
  fold_left (process_inner_node book_abbr chapter) (iter block)
    {| current_verse_num := 0;
       verse_text_buffer := "";
       collecting_text_for_verse := 0;
       last_verse_in_chapter := last_verse;
       bible_text_dict := dict |}.

(** The variables of the loop over the children of one book. *)
Record BookState : Type := mkBookState {
  chapter_verse_counts : list Z;
  book_last_verse : Z;           (* [last_verse_in_chapter] *)
  current_chapter_num : Z;
  book_text_dict : gmap string string
}.

(** Closing the open chapter: its highest verse number, or 0 when the
    chapter had no verse; nothing when no chapter is open. *)
Definition close_chapter (st : BookState) : list Z :=
  if (0 <? current_chapter_num st) && (0 <? book_last_verse st)
  then chapter_verse_counts st ++ [book_last_verse st]
  else if 0 <? current_chapter_num st
  then chapter_verse_counts st ++ [0]
  else chapter_verse_counts st.

(** The loop over the direct children of a book element; an invalid
    chapter id leaves the loop ([break]). *)
Fixpoint process_children (book_abbr : string) (nodes : list Element)
    (st : BookState) : BookState :=
  match nodes with
  | [] => st
  | book_child_node :: rest =>
      if has_tag "c" book_child_node then
        let counts := close_chapter st in
        match Py.int (get "id" book_child_node) with
        | Some n =>
            process_children book_abbr rest
              {| chapter_verse_counts := counts;
                 book_last_verse := 0;
                 current_chapter_num := n;
                 book_text_dict := book_text_dict st |}
        | None =>
            {| chapter_verse_counts := counts;
               book_last_verse := book_last_verse st;
               current_chapter_num := 0;
               book_text_dict := book_text_dict st |}
        end
      else if 0 <? current_chapter_num st then
        let vs := process_block book_abbr (current_chapter_num st)
                    (book_last_verse st) (book_text_dict st) book_child_node in
        process_children book_abbr rest
          {| chapter_verse_counts := chapter_verse_counts st;
             book_last_verse := last_verse_in_chapter vs;
             current_chapter_num := current_chapter_num st;
             book_text_dict := bible_text_dict vs |}
      else process_children book_abbr rest st
  end.

Record BookMeta : Type := mkBookMeta {
  book_name : string;
  book_abbr : string;
  chapters : list Z
}.

(** The collections built by the loop over the book elements. *)
Record Extraction : Type := mkExtraction {
  book_order : list string;
  bible_meta_list : list BookMeta;
  text_dict : gmap string string
}.

(** One iteration of the loop over the book elements. *)
Definition process_book (book_code_to_name : gmap string string)
    (ex : Extraction) (book_element : Element) : Extraction :=
  match get "id" book_element with
  | Some abbr =>
      if Py.truthy abbr && bool_decide (abbr ∈ PROTESTANT_CANON_CODES) then
        let current_book_name := default abbr (book_code_to_name !! abbr) in
        let st := process_children abbr (children book_element)
                    {| chapter_verse_counts := [];
                       book_last_verse := 0;
                       current_chapter_num := 0;
                       book_text_dict := text_dict ex |} in
        let counts := close_chapter st in
        {| book_order := book_order ex ++ [abbr];
           bible_meta_list :=
             match counts with
             | [] => bible_meta_list ex
             | _ => bible_meta_list ex ++
                      [{| book_name := current_book_name;
                          book_abbr := abbr;
                          chapters := counts |}]
             end;
           text_dict := book_text_dict st |}
      else ex
  | None => ex
  end.

Definition extract (book_code_to_name : gmap string string)
    (book_elements : list Element) : Extraction :=
  fold_left (process_book book_code_to_name) book_elements
    {| book_order := []; bible_meta_list := []; text_dict := ∅ |}.

(** Step 3: the list written to [bibleMeta.json]. *)
Definition final_meta_list (ex : Extraction) : list BookMeta :=
  flat_map (λ book_code,
      List.filter (λ meta, String.eqb (book_abbr meta) book_code)
                  (bible_meta_list ex))
    (book_order ex).

(** Step 1: the code-to-name table of [BookNames.xml]. *)
Definition read_book_names (booknames_root : Element) : gmap string string :=
  fold_left (λ m book_elem,
      match get "code" book_elem, get "short" book_elem with
      | Some code, Some short_name =>
          if Py.truthy code && Py.truthy short_name
          then <[code := short_name]> m else m
      | _, _ => m
      end)
    (findall_descendants "book" booknames_root) ∅.

(* ================================================================== *)
(** * Steps 4 and 5: the cross-reference linker *)
(* ================================================================== *)

Record LinkState : Type := mkLinkState {
  refs_intermediate : gmap string (gset string);
  processed_lines : Z;
  added_ref_pairs : Z;
  skipped_lines : Z;
  unmatched_refs : Z
}.

(** [refs.setdefault(a, set()).add(b)]. *)
Definition add_ref (a b : string) (refs : gmap string (gset string))
  : gmap string (gset string) :=
  <[a := default ∅ (refs !! a) ∪ {[b]}]> refs.

Definition skip_line (st : LinkState) : LinkState :=
  {| refs_intermediate := refs_intermediate st;
     processed_lines := processed_lines st + 1;
     added_ref_pairs := added_ref_pairs st;
     skipped_lines := skipped_lines st + 1;
     unmatched_refs := unmatched_refs st |}.

(** One iteration of the loop over the lines of the file. *)
Definition process_line (known_verses known_canon_abbrs_set : gset string)
    (st : LinkState) (line : string) : LinkState :=
  if Py.startswith "#" line || negb (Py.truthy (Py.strip line)) then skip_line st
  else
    match Py.split "009"%char (Py.strip line) with
    | raw_a :: raw_b :: _ =>
        match standardize_verse_ref raw_a ABBR_MAP known_canon_abbrs_set,
              standardize_verse_ref raw_b ABBR_MAP known_canon_abbrs_set with
        | Some std_a, Some std_b =>
            if Py.truthy std_a && Py.truthy std_b
               && negb (String.eqb std_a std_b) then
              if bool_decide (std_a ∈ known_verses)
                 && bool_decide (std_b ∈ known_verses) then
                {| refs_intermediate :=
                     add_ref std_b std_a
                       (add_ref std_a std_b (refs_intermediate st));
                   processed_lines := processed_lines st + 1;
                   added_ref_pairs :=
                     if bool_decide
                          (std_b ∈ default ∅ (refs_intermediate st !! std_a))
                     then added_ref_pairs st else added_ref_pairs st + 1;
                   skipped_lines := skipped_lines st;
                   unmatched_refs := unmatched_refs st |}
              else
                {| refs_intermediate := refs_intermediate st;
                   processed_lines := processed_lines st + 1;
                   added_ref_pairs := added_ref_pairs st;
                   skipped_lines := skipped_lines st;
                   unmatched_refs := unmatched_refs st + 1 |}
            else skip_line st
        | _, _ => skip_line st
        end
    | _ => skip_line st
    end.

Definition initial_links : LinkState :=
  {| refs_intermediate := ∅; processed_lines := 0; added_ref_pairs := 0;
     skipped_lines := 0; unmatched_refs := 0 |}.

(** What the cross-reference stage prints when the file is missing. *)
Inductive Warning : Type :=
| CrossRefFileNotFound : Warning.

(** Step 4.  The file is [None] when [open] raises [FileNotFoundError],
    otherwise the lines it yields.  [refs_intermediate] is created
    before the [try], so the handler leaves it empty. *)
Definition link (crossref_file : option (list string))
    (known_verses known_canon_abbrs_set : gset string)
  : LinkState * list Warning :=
  match crossref_file with
  | Some lines =>
      (fold_left (process_line known_verses known_canon_abbrs_set) lines
                 initial_links, [])
  | None => (initial_links, [CrossRefFileNotFound])
  end.

(** [sorted(list(refs_set))]: the elements in increasing order. *)
Definition sorted_list (refs_set : gset string) : list string :=
  merge_sort String.le (elements refs_set).

(** Step 5: the dict written to [crossRefs.json]. *)
Definition finalize (refs : gmap string (gset string)) : gmap string (list string) :=
  sorted_list <$> refs.

(* ================================================================== *)
(** * The whole run *)
(* ================================================================== *)

Inductive XmlFile : Type :=
| Missing : XmlFile                    (* [os.path.exists] is false *)
| Malformed : XmlFile                  (* [ET.parse] raises [ParseError] *)
| Parsed : Element → XmlFile.          (* the root of the parsed tree *)

Record Inputs : Type := mkInputs {
  booknames_source : XmlFile;
  usfx_source : XmlFile;
  crossref_source : option (list string)
}.

Inductive FatalError : Type :=
| FileNotFound : FatalError
| ParseError : FatalError
| ValueError : FatalError.

(** The three artifacts of a run that reaches its end. *)
Record Outputs : Type := mkOutputs {
  bibleMeta : list BookMeta;
  webBibleText : gmap string string;
  crossRefs : gmap string (list string);
  warnings : list Warning
}.

Inductive Outcome : Type :=
| Fatal : FatalError → Outcome
| Complete : Outputs → Outcome.

(** The book elements of the scripture document. *)
Definition find_books (root : Element) : list Element :=
  match findall_descendants "book" root with
  | [] => findall_children "book" root
  | l => l
  end.

Definition main (inp : Inputs) : Outcome :=
  match booknames_source inp with
  | Missing => Fatal FileNotFound
  | Malformed => Fatal ParseError
  | Parsed booknames_root =>
      let book_code_to_name := read_book_names booknames_root in
      if bool_decide (book_code_to_name = ∅) then Fatal ValueError
      else
        match usfx_source inp with
        | Missing => Fatal FileNotFound
        | Malformed => Fatal ParseError
        | Parsed root =>
            match find_books root with
            | [] => Fatal ValueError
            | book_elements =>
                let ex := extract book_code_to_name book_elements in
                match bible_meta_list ex with
                | [] => Fatal ValueError
                | _ =>
                    let known_verses := dom (text_dict ex) in
                    let known_canon_abbrs_set := list_to_set (book_order ex) in
                    let '(ls, ws) := link (crossref_source inp) known_verses
                                       known_canon_abbrs_set in
                    Complete
                      {| bibleMeta := final_meta_list ex;
                         webBibleText := text_dict ex;
                         crossRefs := finalize (refs_intermediate ls);
                         warnings := ws |}
                end
            end
        end
  end.

(* ================================================================== *)
(** * Sample documents *)
(* ================================================================== *)

Module Samples.

Definition attrs (l : list (string * string)) : gmap string string :=
  list_to_map l.

(** [<v id="n"/>tail] *)
Definition v (id : string) (tl : string) : Element :=
  Elem "v" (attrs [("id", id)]) None (Some tl) [].
Definition ve : Element := Elem "ve" ∅ None None [].
Definition c (id : string) : Element :=
  Elem "c" (attrs [("id", id)]) None None [].
Definition p (cs : list Element) : Element := Elem "p" ∅ None None cs.
Definition w (tx : string) : Element := Elem "w" ∅ (Some tx) None [].
Definition char (tx : string) : Element := Elem "char" ∅ (Some tx) None [].
Definition book (id : string) (cs : list Element) : Element :=
  Elem "book" (attrs [("id", id)]) None None cs.
Definition usfx (books : list Element) : Element :=
  Elem "usfx" ∅ None None books.

Definition name_entry (code short : string) : Element :=
  Elem "book" (attrs [("code", code); ("short", short)]) None None [].
Definition booknames : Element :=
  Elem "BookNames" ∅ None None
    [name_entry "GEN" "Genesis"; name_entry "EXO" "Exodus"].

Definition genesis : Element :=
  book "GEN"
    [c "1"; p [v "1" "In the beginning"; ve; v "2" "And the earth"; ve]].

Definition exodus : Element :=
  book "EXO" [c "1"; p [v "1" "Now these are the names"; ve]].

(** Verse 1 is not closed, and the next marker is a verse bridge. *)
Definition genesis_bridged : Element :=
  book "GEN"
    [c "1"; p [v "1" "In the beginning"; v "2-3" "And the earth"; ve]].

(** The same block with a plain second marker. *)
Definition genesis_unclosed : Element :=
  book "GEN"
    [c "1"; p [v "1" "In the beginning"; v "2" "And the earth"; ve]].

(** A verse with a character run between its words. *)
Definition genesis_char : Element :=
  book "GEN" [c "1"; p [v "1" "And"; char "Yahweh"; w "God"; ve]].

(** The loop state after [<v id="1"/>And]. *)
Definition collecting : VerseState :=
  {| current_verse_num := 1;
     verse_text_buffer := "And ";
     collecting_text_for_verse := 1;
     last_verse_in_chapter := 1;
     bible_text_dict := ∅ |}.

Definition inputs (books : list Element) (refs : option (list string)) : Inputs :=
  {| booknames_source := Parsed booknames;
     usfx_source := Parsed (usfx books);
     crossref_source := refs |}.

Definition run (books : list Element) (refs : option (list string)) : Outcome :=
  main (inputs books refs).

(** One line of [cross_references.txt]: two fields and a tab. *)
Definition ref_line : string :=
  "Gen.1.1" +:+ String "009" "Gen.1.2" +:+ String "010" "".

Definition genesis_outputs : Outputs :=
  {| bibleMeta :=
       [{| book_name := "Genesis"; book_abbr := "GEN"; chapters := [2] |}];
     webBibleText :=
       <["GEN 1:1" := "In the beginning"]> (<["GEN 1:2" := "And the earth"]> ∅);
     crossRefs :=
       <["GEN 1:1" := ["GEN 1:2"]]> (<["GEN 1:2" := ["GEN 1:1"]]> ∅);
     warnings := [] |}.

(** Exodus placed before Genesis, no cross-reference file. *)
Definition exodus_genesis_outputs : Outputs :=
  {| bibleMeta :=
       [{| book_name := "Exodus"; book_abbr := "EXO"; chapters := [1] |};
        {| book_name := "Genesis"; book_abbr := "GEN"; chapters := [2] |}];
     webBibleText :=
       <["EXO 1:1" := "Now these are the names"]>
         (<["GEN 1:1" := "In the beginning"]>
            (<["GEN 1:2" := "And the earth"]> ∅));
     crossRefs := ∅;
     warnings := [CrossRefFileNotFound] |}.

End Samples.

(* ================================================================== *)
(** * Notions used to state the properties *)
(* ================================================================== *)

(** The three parts [standardize_verse_ref] reads off a match. *)
Definition ref_parts (m : gmap nat string) : string * string * string :=
  (Py.strip (Re.group 1 m), Re.group 2 m, Re.group 3 m).

(** The book part, chapter and verse of a citation token, when the
    token has the shape of [verse_pattern]. *)
Definition parse_ref (ref_string : string) : option (string * string * string) :=
  ref_parts <$> Re.match_ verse_pattern ref_string.

Module ReSpec.
Import Re.

Fixpoint all (p : ascii → bool) (s : string) : bool :=
  match s with
  | EmptyString => true
  | String c s' => p c && all p s'
  end.

(** [denote r w rest caps caps']: [r] matches the word [w] in front of
    [rest], turning the captures [caps] into [caps']. *)
Fixpoint denote (r : re) (w rest : string) (caps caps' : gmap nat string)
  : Prop :=
  match r with
  | Eps | Bol => w = "" ∧ caps' = caps
  | Chr p => ∃ c, w = String c "" ∧ p c = true ∧ caps' = caps
  | Star p => all p w = true ∧ caps' = caps
  | Seq r1 r2 =>
      ∃ w1 w2 caps1, w = w1 +:+ w2 ∧
        denote r1 w1 (w2 +:+ rest) caps caps1 ∧ denote r2 w2 rest caps1 caps'
  | Alt r1 r2 => denote r1 w rest caps caps' ∨ denote r2 w rest caps caps'
  | Group n r' => ∃ caps1, denote r' w rest caps caps1 ∧ caps' = <[n := w]> caps1
  | Eol => w = "" ∧ caps' = caps ∧ (rest = "" ∨ rest = String "010" "")
  end.
End ReSpec.

(** A digit string that starts with the digit zero. *)
Definition leading_zero (s : string) : Prop :=
  ∃ s', s = String "0"%char s'.

(** Position of a code in the canonical reading order (66 for a code
    outside the canon). *)
Fixpoint index_of (x : string) (l : list string) : nat :=
  match l with
  | [] => 0
  | y :: l' => if String.eqb x y then 0 else S (index_of x l')
  end.

Definition canon_rank (code : string) : nat := index_of code canon_literal.

(** A sequence of book codes that follows the canonical order. *)
Definition canonically_ordered (codes : list string) : Prop :=
  Sorted (λ a b, (canon_rank a ≤ canon_rank b)%nat) codes.

(** The test at the head of the loop over the book elements. *)
Definition admitted (book_element : Element) : option string :=
  match get "id" book_element with
  | Some abbr =>
      if Py.truthy abbr && bool_decide (abbr ∈ PROTESTANT_CANON_CODES)
      then Some abbr else None
  | None => None
  end.

(** The codes of the admitted book elements, in document order. *)
Definition admitted_codes (book_elements : list Element) : list string :=
  omap admitted book_elements.


(** What a node contributes to the buffer through its own text and
    through its trailing text, while a verse is being collected. *)
Definition own_text (node : Element) : string :=
  match text node with
  | Some tx => if Py.truthy (Py.strip tx) then Py.strip tx +:+ " " else ""
  | None => ""
  end.

Definition tail_text (node : Element) : string :=
  match tail node with
  | Some tl => if Py.truthy tl then Py.strip tl +:+ " " else ""
  | None => ""
  end.

(** The graph invariant kept by the linker. *)
Definition links_ok (known_verses : gset string)
    (refs : gmap string (gset string)) : Prop :=
  ∀ a s, refs !! a = Some s →
    s ≠ ∅ ∧ a ∈ known_verses ∧ (a ∉ s) ∧ (s ⊆ known_verses) ∧
    (∀ b, b ∈ s → ∃ t, refs !! b = Some t ∧ a ∈ t).

(** The keys the extractor may create. *)
Definition extractor_key (k : string) : Prop :=
  ∃ abbr c n, k = verse_key abbr c n ∧ abbr ∈ PROTESTANT_CANON_CODES ∧ 0 < c ∧ 0 < n.

(** The keys the extractor may create for the books of a given set. *)
Definition key_of_books (codes : list string) (k : string) : Prop :=
  ∃ abbr c n, k = verse_key abbr c n ∧ abbr ∈ codes ∧ 0 < c ∧ 0 < n.

(** A stored verse text: not empty, and left unchanged by cleaning. *)
Definition text_ok (v : string) : Prop :=
  v ≠ "" ∧ clean_text v = v.

(** The entries the extractor may store for the books of a given set. *)
Definition entries_ok (codes : list string) (d : gmap string string) : Prop :=
  ∀ k v, d !! k = Some v → key_of_books codes k ∧ text_ok v.

(** White space in a cleaned text: single blanks, each followed by a
    character that is not white space. *)
Definition head_space (s : string) : bool :=
  match s with
  | String c _ => Py.is_space c
  | EmptyString => false
  end.

Fixpoint tidy (s : string) : bool :=
  match s with
  | EmptyString => true
  | String c s' =>
      (if Py.is_space c then Ascii.eqb c " " && negb (head_space s') else true)
      && tidy s'
  end.

(** The number a verse marker announces, when its id is one. *)
Definition marker_number (node : Element) : option Z :=
  if has_tag "v" node then Py.int (get "id" node) else None.

(** Verse-start and verse-end markers. *)
Definition is_marker (node : Element) : bool :=
  has_tag "v" node || has_tag "ve" node.

(** A metadata entry as the extractor builds them. *)
Definition meta_ok (names : gmap string string) (m : BookMeta) : Prop :=
  book_abbr m ∈ PROTESTANT_CANON_CODES ∧
  book_name m = default (book_abbr m) (names !! book_abbr m) ∧
  chapters m ≠ [] ∧
  Forall (λ n, 0 ≤ n) (chapters m).

(** The test that lets a book element through, as a boolean. *)
Definition is_admitted (book_element : Element) : bool :=
  match admitted book_element with Some _ => true | None => false end.

(** What one line of the cross-reference file does to the graph. *)
Definition line_effect (known_verses known_canon : gset string)
    (line : string) (refs : gmap string (gset string))
  : gmap string (gset string) :=
  refs_intermediate
    (process_line known_verses known_canon
       {| refs_intermediate := refs; processed_lines := 0;
          added_ref_pairs := 0; skipped_lines := 0; unmatched_refs := 0 |}
       line).

(** The total number of neighbours recorded in a graph. *)
Definition degree_sum (refs : gmap string (gset string)) : nat :=
  map_fold (λ _ s n, (size s + n)%nat) 0%nat refs.

(** A comment line or a blank line of the cross-reference file. *)
Definition is_comment_or_blank (line : string) : bool :=
  Py.startswith "#" line || negb (Py.truthy (Py.strip line)).

(** Whether a string starts with a character of a class. *)
Definition head_in (p : ascii → bool) (s : string) : bool :=
  match s with
  | String c _ => p c
  | EmptyString => false
  end.

(** The longest prefix of a string in a class, and what follows it. *)
Fixpoint take_while (p : ascii → bool) (s : string) : string :=
  match s with
  | String c s' => if p c then String c (take_while p s') else EmptyString
  | EmptyString => EmptyString
  end.

Fixpoint drop_while (p : ascii → bool) (s : string) : string :=
  match s with
  | String c s' => if p c then drop_while p s' else s
  | EmptyString => EmptyString
  end.

(** What may follow the verse digits: the rest of [verse_pattern]
    accepts it and it does not go on with a digit. *)
Definition tail_accepted (T : string) : Prop :=
  head_in Py.is_digit T = false ∧
  ∀ caps : gmap nat string,
    Re.run (Re.Opt range_tail >>> Re.Star Py.is_space >>> Re.Eol) T caps
        (λ _ caps', Some caps') = Some caps.

(** The citation that names a verse by its code and numbers:
    ["<code>.<chapter>.<verse>"]. *)
Definition citation_of (code : string) (chapter verse : Z) : string :=
  code +:+ "." +:+ Py.str_of_int chapter +:+ "." +:+ Py.str_of_int verse.

(** Every key of a verse text mapping is one the extractor may create. *)
Definition keys_ok (d : gmap string string) : Prop :=
  ∀ k, is_Some (d !! k) → extractor_key k.

(* ================================================================== *)
(** * Strings *)
(* ================================================================== *)

Section string_facts.

Lemma app_nil_l (s : string) : "" +:+ s = s.
Proof. reflexivity. Qed.

Lemma app_cons (c : ascii) (s t : string) :
  String c s +:+ t = String c (s +:+ t).
Proof. reflexivity. Qed.

Lemma app_nil_r (s : string) : s +:+ "" = s.
Proof. induction s as [|c s IH]; [done | by rewrite app_cons, IH]. Qed.

Lemma app_assoc (s1 s2 s3 : string) : (s1 +:+ s2) +:+ s3 = s1 +:+ s2 +:+ s3.
Proof. induction s1 as [|c s1 IH]; [done | by rewrite !app_cons, IH]. Qed.

Lemma length_app (s1 s2 : string) :
  String.length (s1 +:+ s2) = (String.length s1 + String.length s2)%nat.
Proof. induction s1 as [|c s1 IH]; [done | rewrite app_cons; simpl; by rewrite IH]. Qed.

Lemma take_app (w rest : string) : Re.take (String.length w) (w +:+ rest) = w.
Proof.
  induction w as [|c w IH]; [by destruct rest |].
  rewrite app_cons. simpl. by rewrite IH.
Qed.

Lemma consumed_app (w rest : string) : Re.consumed (w +:+ rest) rest = w.
Proof.
  unfold Re.consumed. rewrite length_app.
  replace (String.length w + String.length rest - String.length rest)%nat
    with (String.length w) by lia.
  apply take_app.
Qed.

Lemma truthy_false (s : string) : Py.truthy s = false → s = "".
Proof. by destruct s. Qed.

End string_facts.

(* ================================================================== *)
(** * Soundness of the matcher *)
(* ================================================================== *)

Section matcher_sound.
Import Re ReSpec.
Context {R : Type}.

Lemma star_sound (p : ascii → bool) (k : string → option R) (s : string) (res : R) :
  star p k s = Some res →
  ∃ w rest, s = w +:+ rest ∧ all p w = true ∧ k rest = Some res.
Proof.
  induction s as [|c s IH]; simpl.
  - intros Hk. by exists "", "".
  - destruct (p c) eqn:Hp.
    + destruct (star p k s) as [r|] eqn:Hs.
      * intros [= ->]. destruct (IH eq_refl) as (w & rest & -> & Hw & Hk).
        exists (String c w), rest. simpl. by rewrite Hp, Hw.
      * intros Hk. by exists "", (String c s).
    + intros Hk. by exists "", (String c s).
Qed.

Lemma run_sound (r : re) :
  ∀ (s : string) (caps : gmap nat string)
    (k : string → gmap nat string → option R) (res : R),
    run r s caps k = Some res →
    ∃ w rest caps', s = w +:+ rest ∧ denote r w rest caps caps' ∧
                    k rest caps' = Some res.
Proof.
  induction r as [|p|p|r1 IH1 r2 IH2|r1 IH1 r2 IH2|n r IH| |];
    intros s caps k res; simpl.
  - intros Hk. by exists "", s, caps.
  - destruct s as [|c s]; [done|]. destruct (p c) eqn:Hp; [|done].
    intros Hk. exists (String c ""), s, caps. eauto 6.
  - intros (w & rest & -> & Hw & Hk)%star_sound. by exists w, rest, caps.
  - intros (w1 & rest1 & caps1 & -> & H1 & Hk1)%IH1.
    apply IH2 in Hk1 as (w2 & rest & caps2 & -> & H2 & Hk).
    exists (w1 +:+ w2), rest, caps2. rewrite app_assoc. eauto 8.
  - destruct (run r1 s caps k) as [x|] eqn:H1.
    + intros [= ->]. apply IH1 in H1 as (w & rest & caps' & ? & ? & ?).
      exists w, rest, caps'. auto.
    + intros (w & rest & caps' & ? & ? & ?)%IH2. exists w, rest, caps'. auto.
  - intros (w & rest & caps1 & -> & H & Hk)%IH.
    rewrite consumed_app in Hk. exists w, rest, (<[n := w]> caps1). eauto.
  - intros Hk. by exists "", s, caps.
  - destruct s as [|c [|c' s]]; [| |done].
    + intros Hk. exists "", "", caps. repeat split; auto.
    + destruct (Ascii.eqb c "010") eqn:Hc; [|done].
      apply Ascii.eqb_eq in Hc as ->.
      intros Hk. exists "", (String "010" ""), caps. repeat split; auto.
Qed.
End matcher_sound.

(** ** The groups of a match of [verse_pattern] *)

Section verse_pattern_facts.
Import Re ReSpec.

Lemma verse_pattern_groups (s : string) (m : gmap nat string) :
  match_ verse_pattern s = Some m →
  ∃ g1 g2 g3, m = <[3%nat := g3]> (<[2%nat := g2]> (<[1%nat := g1]> ∅)) ∧
              all Py.is_digit g2 = true ∧ all Py.is_digit g3 = true.
Proof.
  unfold match_. intros H.
  apply run_sound in H as (w & rest & caps & -> & Hd & [= <-]).
  unfold verse_pattern, range_tail, Plus, Opt, Lit in Hd. simpl in Hd.
  repeat match goal with
         | H : ∃ _, _ |- _ => destruct H
         | H : _ ∧ _ |- _ => destruct H
         | H : _ ∨ _ |- _ => destruct H
         end; subst;
    (eexists _, _, _; split; [reflexivity|]);
    rewrite !app_cons, !app_nil_l; simpl; split;
    repeat match goal with H : _ = true |- _ => rewrite H; clear H end; done.
Qed.

Lemma parse_ref_digits (t bp ch vs : string) :
  parse_ref t = Some (bp, ch, vs) →
  all Py.is_digit ch = true ∧ all Py.is_digit vs = true.
Proof.
  unfold parse_ref. destruct (match_ verse_pattern t) as [m|] eqn:Hm; [|done].
  apply verse_pattern_groups in Hm as (g1 & g2 & g3 & -> & H2 & H3).
  unfold ref_parts, group.
  rewrite fmap_Some. intros (m & [= <-] & [= _ -> ->]).
  by rewrite lookup_insert_eq, lookup_insert_ne, lookup_insert_eq.
Qed.
End verse_pattern_facts.

(* ================================================================== *)
(** * Decimal numerals *)
(* ================================================================== *)

Section decimal_facts.
Import ReSpec.

Lemma string_of_uint_digits (d : Decimal.uint) :
  all Py.is_digit (NilEmpty.string_of_uint d) = true.
Proof. induction d; simpl; auto. Qed.

Lemma pos_to_uint_normal (p : positive) :
  Decimal.unorm (Pos.to_uint p) = Pos.to_uint p.
Proof.
  rewrite <- (DecimalPos.Unsigned.to_of (Pos.to_uint p)).
  by rewrite DecimalPos.Unsigned.of_to.
Qed.

Lemma pos_to_uint_head (p : positive) (d : Decimal.uint) :
  Pos.to_uint p ≠ Decimal.D0 d.
Proof.
  intros H. pose proof (pos_to_uint_normal p) as Hn.
  rewrite H, DecimalFacts.unorm_D0 in Hn.
  assert (d = Decimal.Nil ∨ d ≠ Decimal.Nil) as [->|Hd]
    by (destruct d; auto).
  - by apply (DecimalPos.Unsigned.to_uint_nonzero p).
  - pose proof (DecimalFacts.nb_digits_unorm d Hd) as Hle.
    rewrite Hn in Hle. simpl in Hle. lia.
Qed.

Lemma str_of_int_pos (p : positive) :
  Py.str_of_int (Z.pos p) = NilEmpty.string_of_uint (Pos.to_uint p).
Proof.
  unfold Py.str_of_int. simpl. unfold NilZero.string_of_uint.
  destruct (Pos.to_uint p) eqn:H; try done.
  by apply DecimalPos.Unsigned.to_uint_nonnil in H.
Qed.

Lemma str_of_int_digits (n : Z) :
  0 < n → all Py.is_digit (Py.str_of_int n) = true.
Proof.
  destruct n as [|p|p]; [lia| |lia]. intros _.
  rewrite str_of_int_pos. apply string_of_uint_digits.
Qed.

Lemma str_of_int_no_leading_zero (n : Z) :
  0 < n → ¬ leading_zero (Py.str_of_int n).
Proof.
  destruct n as [|p|p]; [lia| |lia]. intros _ [s' Hs].
  rewrite str_of_int_pos in Hs.
  destruct (Pos.to_uint p) eqn:H; simpl in Hs; try done.
  by apply pos_to_uint_head in H.
Qed.

(** Two digit strings followed by a colon agree when the whole
    strings agree. *)
Lemma digits_colon_split (a b x y : string) :
  all Py.is_digit a = true → all Py.is_digit b = true →
  a +:+ ":" +:+ x = b +:+ ":" +:+ y → a = b ∧ x = y.
Proof.
  revert b. induction a as [|c a IH]; intros [|c' b] Ha Hb;
    rewrite ?app_cons, ?app_nil_l; simpl in Ha, Hb;
    try apply andb_true_iff in Ha as [Hc Ha];
    try apply andb_true_iff in Hb as [Hc' Hb].
  - by intros [= ->].
  - intros [= <- _]. by vm_compute in Hc'.
  - intros [= -> _]. by vm_compute in Hc.
  - intros [= -> H]. by destruct (IH b Ha Hb H) as [-> ->].
Qed.

Lemma canon_code_length (code : string) :
  code ∈ PROTESTANT_CANON_CODES →
  ∃ c1 c2 c3, code = String c1 (String c2 (String c3 "")).
Proof.
  unfold PROTESTANT_CANON_CODES. rewrite elem_of_list_to_set.
  unfold canon_literal. rewrite !elem_of_cons, elem_of_nil.
  intros H. repeat (destruct H as [->|H]; [by eexists _, _, _|]). done.
Qed.

(** A citation with a leading zero in its chapter or verse never
    names a key of the extractor. *)
Lemma leading_zero_not_key (code ch vs : string) :
  code ∈ PROTESTANT_CANON_CODES →
  all Py.is_digit ch = true →
  leading_zero ch ∨ leading_zero vs →
  ¬ extractor_key (verse_id code ch vs).
Proof.
  intros Hcode Hch Hz (abbr & c & n & Heq & Habbr & Hc & Hn).
  apply canon_code_length in Hcode as (c1 & c2 & c3 & ->).
  apply canon_code_length in Habbr as (a1 & a2 & a3 & ->).
  unfold verse_key, verse_id in Heq. rewrite !app_cons, !app_nil_l in Heq.
  injection Heq as _ _ _ Heq.
  apply digits_colon_split in Heq as [-> ->];
    [|done|by apply str_of_int_digits].
  destruct Hz as [Hz|Hz]; by eapply str_of_int_no_leading_zero in Hz.
Qed.
End decimal_facts.

(* ================================================================== *)
(** * Invariants of the text extractor *)
(* ================================================================== *)

Section extractor_invariants.

Lemma keys_ok_empty : keys_ok ∅.
Proof. intros k [x Hx]. by rewrite lookup_empty in Hx. Qed.

Lemma keys_ok_insert (d : gmap string string) (k v : string) :
  keys_ok d → extractor_key k → keys_ok (<[k := v]> d).
Proof.
  intros Hd Hk k' [x Hx]. destruct (decide (k = k')) as [<-|Hne]; [done|].
  rewrite lookup_insert_ne in Hx by done. apply Hd. by exists x.
Qed.

Lemma flush_keys_ok (abbr : string) (chapter : Z) (st : VerseState) :
  abbr ∈ PROTESTANT_CANON_CODES → 0 < chapter →
  keys_ok (bible_text_dict st) → keys_ok (flush abbr chapter st).
Proof.
  intros Habbr Hc Hd. unfold flush.
  destruct (0 <? collecting_text_for_verse st) eqn:Hcol; [|done].
  destruct (Py.truthy _); [|done].
  apply keys_ok_insert; [done|].
  exists abbr, chapter, (collecting_text_for_verse st). repeat split; auto. lia.
Qed.

Lemma process_inner_node_keys_ok abbr chapter st node :
  abbr ∈ PROTESTANT_CANON_CODES → 0 < chapter →
  keys_ok (bible_text_dict st) →
  keys_ok (bible_text_dict (process_inner_node abbr chapter st node)).
Proof.
  intros Habbr Hc Hd. pose proof (flush_keys_ok abbr chapter st Habbr Hc Hd).
  unfold process_inner_node.
  repeat (case_match; simpl; try done).
Qed.

Lemma process_block_keys_ok abbr chapter last dict block :
  abbr ∈ PROTESTANT_CANON_CODES → 0 < chapter → keys_ok dict →
  keys_ok (bible_text_dict (process_block abbr chapter last dict block)).
Proof.
  intros Habbr Hc Hd. unfold process_block.
  set (st0 := {| current_verse_num := 0; verse_text_buffer := "";
                 collecting_text_for_verse := 0;
                 last_verse_in_chapter := last; bible_text_dict := dict |}).
  assert (keys_ok (bible_text_dict st0)) as H0 by done. clearbody st0.
  revert st0 H0. induction (iter block) as [|n l IH]; intros st0 H0; simpl.
  - done.
  - apply IH. by apply process_inner_node_keys_ok.
Qed.

Lemma process_children_keys_ok abbr nodes st :
  abbr ∈ PROTESTANT_CANON_CODES → keys_ok (book_text_dict st) →
  keys_ok (book_text_dict (process_children abbr nodes st)).
Proof.
  intros Habbr. revert st. induction nodes as [|n nodes IH]; intros st Hd; simpl.
  - done.
  - destruct (has_tag "c" n).
    + destruct (Py.int (get "id" n)); [by apply IH | done].
    + destruct (0 <? current_chapter_num st) eqn:Hc; [|by apply IH].
      apply IH. simpl. apply process_block_keys_ok; [done|lia|done].
Qed.

Lemma process_book_keys_ok names ex book :
  keys_ok (text_dict ex) → keys_ok (text_dict (process_book names ex book)).
Proof.
  intros Hd. unfold process_book.
  destruct (get "id" book) as [abbr|]; [|done].
  destruct (Py.truthy abbr); simpl; [|done].
  case_bool_decide as Hin; simpl; [|done].
  by apply process_children_keys_ok.
Qed.

Lemma process_book_order names ex book :
  book_order (process_book names ex book)
  = book_order ex ++ option_list (admitted book).
Proof.
  unfold process_book, admitted.
  destruct (get "id" book) as [abbr|]; simpl; [|by rewrite List.app_nil_r].
  destruct (Py.truthy abbr && bool_decide (abbr ∈ PROTESTANT_CANON_CODES));
    simpl; [done | by rewrite List.app_nil_r].
Qed.

Lemma admitted_canon book code :
  admitted book = Some code → code ∈ PROTESTANT_CANON_CODES.
Proof.
  unfold admitted. destruct (get "id" book) as [abbr|]; [|done].
  destruct (Py.truthy abbr); simpl; [|done].
  case_bool_decide; [|done]. by intros [= <-].
Qed.

(** The retained books are some of the admitted ones, in the same
    order. *)
Lemma process_book_meta names ex book :
  ∃ l, bible_meta_list (process_book names ex book) = bible_meta_list ex ++ l
       ∧ book_abbr <$> l `sublist_of` option_list (admitted book).
Proof.
  unfold process_book, admitted.
  destruct (get "id" book) as [abbr|]; simpl;
    [|exists []; by rewrite List.app_nil_r].
  destruct (Py.truthy abbr && bool_decide (abbr ∈ PROTESTANT_CANON_CODES));
    simpl; [|exists []; by rewrite List.app_nil_r].
  destruct (close_chapter _) as [|x counts].
  - exists []. rewrite List.app_nil_r. split; [done|]. apply sublist_nil_l.
  - eexists [_]. split; [done|]. simpl. done.
Qed.

Lemma admitted_codes_cons b books :
  admitted_codes (b :: books) = option_list (admitted b) ++ admitted_codes books.
Proof. unfold admitted_codes. simpl. by destruct (admitted b). Qed.

Lemma extract_from names books ex :
  let ex' := fold_left (process_book names) books ex in
  (keys_ok (text_dict ex) → keys_ok (text_dict ex')) ∧
  book_order ex' = book_order ex ++ admitted_codes books ∧
  ∃ l, bible_meta_list ex' = bible_meta_list ex ++ l
       ∧ book_abbr <$> l `sublist_of` admitted_codes books.
Proof.
  revert ex. induction books as [|b books IH]; intros ex.
  - simpl. split; [done|]. split; [by rewrite List.app_nil_r|].
    exists []. by rewrite List.app_nil_r.
  - rewrite admitted_codes_cons. cbn [fold_left].
    destruct (IH (process_book names ex b)) as (Hk & Ho & l & Hm & Hl).
    cbv zeta. split; [|split].
    + intros H. by apply Hk, process_book_keys_ok.
    + by rewrite Ho, process_book_order, <- List.app_assoc.
    + destruct (process_book_meta names ex b) as (l0 & Hm0 & Hl0).
      exists (l0 ++ l). rewrite Hm, Hm0, <- List.app_assoc. split; [done|].
      rewrite fmap_app. by apply sublist_app.
Qed.

Lemma extract_keys_ok names books : keys_ok (text_dict (extract names books)).
Proof. apply extract_from, keys_ok_empty. Qed.

Lemma extract_book_order names books :
  book_order (extract names books) = admitted_codes books.
Proof.
  destruct (extract_from names books
              {| book_order := []; bible_meta_list := []; text_dict := ∅ |})
    as (_ & Ho & _).
  unfold extract. by rewrite Ho.
Qed.

Lemma extract_meta_sublist names books :
  book_abbr <$> bible_meta_list (extract names books)
    `sublist_of` admitted_codes books.
Proof.
  destruct (extract_from names books
              {| book_order := []; bible_meta_list := []; text_dict := ∅ |})
    as (_ & _ & l & Hm & Hl).
  unfold extract. by rewrite Hm.
Qed.

Lemma admitted_codes_canon books code :
  code ∈ admitted_codes books → code ∈ PROTESTANT_CANON_CODES.
Proof.
  unfold admitted_codes. rewrite list_elem_of_omap.
  intros (b & _ & Hb). by eapply admitted_canon.
Qed.

(** The list comprehension of step 3 returns the retained books
    unchanged when no code occurs twice in [book_order]. *)
Lemma reorder_id (order : list string) :
  ∀ metas : list BookMeta,
    NoDup order → book_abbr <$> metas `sublist_of` order →
    flat_map (λ book_code,
        List.filter (λ meta, String.eqb (book_abbr meta) book_code) metas)
      order = metas.
Proof.
  assert (Hnone : ∀ (c : string) (metas : list BookMeta),
             c ∉ book_abbr <$> metas →
             List.filter (λ meta, String.eqb (book_abbr meta) c) metas = []).
  { intros c metas. induction metas as [|m metas IH]; simpl; [done|].
    rewrite not_elem_of_cons. intros [Hne Hni].
    destruct (String.eqb_spec (book_abbr m) c); [done | by apply IH]. }
  induction order as [|c order IH]; intros metas Hnd Hsub; simpl.
  - apply sublist_nil_r in Hsub. by destruct metas.
  - apply NoDup_cons in Hnd as [Hc Hnd].
    apply sublist_cons_r in Hsub as [Hsub|(l' & Heq & Hsub)].
    + rewrite Hnone, IH; [done..|].
      intros Hin. apply Hc. by apply (sublist_subseteq _ _ Hsub).
    + destruct metas as [|m metas]; [done|]. simpl in Heq.
      injection Heq as Hm <-. simpl. rewrite Hm, String.eqb_refl.
      rewrite Hnone
        by (intros Hin; apply Hc; by apply (sublist_subseteq _ _ Hsub)).
      simpl. f_equal.
      etrans; [|exact (IH metas Hnd Hsub)].
      clear -Hc Hm. induction order as [|c' order IHo]; simpl; [done|].
      apply not_elem_of_cons in Hc as [Hne Hc]. rewrite (IHo Hc).
      by destruct (String.eqb_spec c c').
Qed.

End extractor_invariants.

(* ================================================================== *)
(** * Invariants of the linker *)
(* ================================================================== *)

Section linker_invariants.
Context (known_verses known_canon : gset string).

Lemma lookup_add_ref (a b x : string) (refs : gmap string (gset string)) :
  add_ref a b refs !! x
  = if decide (a = x) then Some (default ∅ (refs !! a) ∪ {[b]}) else refs !! x.
Proof. unfold add_ref. apply lookup_insert. Qed.

Lemma links_ok_empty : links_ok known_verses ∅.
Proof. intros a s Ha. by rewrite lookup_empty in Ha. Qed.

(** What the invariant says about the neighbours recorded so far. *)
Lemma links_ok_default (refs : gmap string (gset string)) (a : string) :
  links_ok known_verses refs →
  (a ∉ default ∅ (refs !! a)) ∧
  (default ∅ (refs !! a) ⊆ known_verses) ∧
  ∀ y, y ∈ default ∅ (refs !! a) → ∃ t, refs !! y = Some t ∧ a ∈ t.
Proof.
  intros Hok. destruct (refs !! a) as [s|] eqn:Hs; simpl.
  - destruct (Hok a s Hs) as (_ & _ & ? & ? & ?). done.
  - set_solver.
Qed.

Lemma links_ok_add (refs : gmap string (gset string)) (a b : string) :
  a ≠ b → a ∈ known_verses → b ∈ known_verses →
  links_ok known_verses refs →
  links_ok known_verses (add_ref b a (add_ref a b refs)).
Proof.
  intros Hne Ha Hb Hok.
  destruct (links_ok_default refs a Hok) as (Ha1 & Ha2 & Ha3).
  destruct (links_ok_default refs b Hok) as (Hb1 & Hb2 & Hb3).
  assert (Hlook : ∀ x,
    add_ref b a (add_ref a b refs) !! x
    = if decide (b = x) then Some (default ∅ (refs !! b) ∪ {[a]})
      else if decide (a = x) then Some (default ∅ (refs !! a) ∪ {[b]})
      else refs !! x).
  { intros x. rewrite !lookup_add_ref.
    destruct (decide (b = x)) as [<-|]; [|done].
    by destruct (decide (a = b)). }
  intros x s. rewrite Hlook.
  destruct (decide (b = x)) as [<-|Hbx]; [|destruct (decide (a = x)) as [<-|Hax]].
  - intros [= <-]. repeat split; [set_solver..|].
    intros y Hy. rewrite Hlook.
    destruct (decide (b = y)) as [<-|]; [set_solver|].
    destruct (decide (a = y)) as [<-|]; [eexists; split; [done|set_solver]|].
    apply Hb3. set_solver.
  - intros [= <-]. repeat split; [set_solver..|].
    intros y Hy. rewrite Hlook.
    destruct (decide (b = y)) as [<-|]; [eexists; split; [done|set_solver]|].
    destruct (decide (a = y)) as [<-|]; [set_solver|].
    apply Ha3. set_solver.
  - intros Hx. destruct (Hok x s Hx) as (H1 & H2 & H3 & H4 & H5).
    repeat split; [done..|].
    intros y Hy. rewrite Hlook. destruct (H5 y Hy) as (t & Ht & Hxt).
    destruct (decide (b = y)) as [<-|].
    { eexists; split; [done|]. rewrite Ht. set_solver. }
    destruct (decide (a = y)) as [<-|].
    { eexists; split; [done|]. rewrite Ht. set_solver. }
    eauto.
Qed.

Lemma process_line_ok (st : LinkState) (line : string) :
  links_ok known_verses (refs_intermediate st) →
  links_ok known_verses
    (refs_intermediate (process_line known_verses known_canon st line)).
Proof.
  intros Hok. unfold process_line.
  repeat (case_match; simpl; try done).
  repeat match goal with
         | H : _ && _ = true |- _ => apply andb_true_iff in H as [? ?]
         | H : bool_decide _ = true |- _ => apply bool_decide_eq_true in H
         | H : negb _ = true |- _ => apply negb_true_iff in H
         | H : String.eqb _ _ = false |- _ => apply String.eqb_neq in H
         end.
  by apply links_ok_add.
Qed.

Lemma link_ok (file : option (list string)) :
  links_ok known_verses (refs_intermediate (link file known_verses known_canon).1).
Proof.
  destruct file as [lines|]; simpl; [|apply links_ok_empty].
  assert (links_ok known_verses (refs_intermediate initial_links)) as H0
    by apply links_ok_empty.
  revert H0. generalize initial_links.
  induction lines as [|l lines IH]; intros st H0; simpl; [done|].
  by apply IH, process_line_ok.
Qed.

End linker_invariants.

Section finalize_facts.

Lemma elem_of_sorted_list (x : string) (s : gset string) :
  x ∈ sorted_list s ↔ x ∈ s.
Proof.
  unfold sorted_list. rewrite merge_sort_Permutation. apply elem_of_elements.
Qed.

Lemma lookup_finalize (refs : gmap string (gset string)) (a : string)
    (l : list string) :
  finalize refs !! a = Some l ↔ ∃ s, refs !! a = Some s ∧ l = sorted_list s.
Proof.
  unfold finalize. rewrite lookup_fmap, fmap_Some. naive_solver.
Qed.

Lemma sorted_list_sorted (s : gset string) :
  StronglySorted String.le (sorted_list s).
Proof. apply StronglySorted_merge_sort; apply _. Qed.

Lemma sorted_list_NoDup (s : gset string) : NoDup (sorted_list s).
Proof.
  unfold sorted_list. rewrite merge_sort_Permutation. apply NoDup_elements.
Qed.

Lemma sorted_list_nil (s : gset string) : sorted_list s = [] → s = ∅.
Proof.
  intros H. apply set_eq. intros x. rewrite <- elem_of_sorted_list, H.
  set_solver.
Qed.

End finalize_facts.

(* ================================================================== *)
(** * The shape of a run that completes *)
(* ================================================================== *)

Lemma main_complete (inp : Inputs) (outs : Outputs) :
  main inp = Complete outs →
  ∃ booknames_root root,
    booknames_source inp = Parsed booknames_root ∧
    usfx_source inp = Parsed root ∧
    let ex := extract (read_book_names booknames_root) (find_books root) in
    let r := link (crossref_source inp) (dom (text_dict ex))
                  (list_to_set (book_order ex)) in
    outs = {| bibleMeta := final_meta_list ex;
              webBibleText := text_dict ex;
              crossRefs := finalize (refs_intermediate r.1);
              warnings := r.2 |}.
Proof.
  unfold main. intros H.
  destruct (booknames_source inp) as [| |booknames_root]; [done..|].
  destruct (usfx_source inp) as [| |root]; [by case_match..|].
  exists booknames_root, root. split; [done|]. split; [done|].
  repeat (case_match; try done).
  injection H as <-. simpl.
  repeat match goal with H : link _ _ _ = _ |- _ => rewrite H end. done.
Qed.

Lemma run_graph_ok (inp : Inputs) (outs : Outputs) :
  main inp = Complete outs →
  ∃ refs, crossRefs outs = finalize refs ∧ links_ok (dom (webBibleText outs)) refs.
Proof.
  intros (bn & root & _ & _ & ->)%main_complete. simpl.
  eexists. split; [done|]. apply link_ok.
Qed.

Lemma run_keys_ok (inp : Inputs) (outs : Outputs) :
  main inp = Complete outs → keys_ok (webBibleText outs).
Proof.
  intros (bn & root & _ & _ & ->)%main_complete. simpl. apply extract_keys_ok.
Qed.

(** ** Facts about [resolve_book] *)

Lemma resolve_book_Some bp ch vs (abbr : gmap string string) (known : gset string) id :
  resolve_book bp ch vs abbr known = Some id →
  ∃ code, code ∈ known ∧ id = verse_id code ch vs.
Proof.
  unfold resolve_book.
  repeat (case_match; try done); intros [= <-];
    repeat match goal with
           | H : _ && _ = true |- _ => apply andb_true_iff in H as [? ?]
           | H : bool_decide _ = true |- _ => apply bool_decide_eq_true in H
           end; eauto.
Qed.


Lemma standardize_parse (t : string) (abbr : gmap string string) (known : gset string) :
  standardize_verse_ref t abbr known
  = match parse_ref t with
    | Some (bp, ch, vs) => resolve_book bp ch vs abbr known
    | None => None
    end.
Proof.
  unfold standardize_verse_ref, parse_ref, ref_parts.
  by destruct (Re.match_ verse_pattern t).
Qed.

Lemma extract_known_canon names books :
  list_to_set (book_order (extract names books)) ⊆ PROTESTANT_CANON_CODES.
Proof.
  rewrite extract_book_order. intros code.
  rewrite elem_of_list_to_set. apply admitted_codes_canon.
Qed.

(* ================================================================== *)
(** * Properties of the program *)
(* ================================================================== *)

(** The end-to-end scenario: one book, two verses, one pair. *)
Lemma genesis_run :
  Samples.run [Samples.genesis] (Some [Samples.ref_line])
  = Complete Samples.genesis_outputs.
Proof. vm_compute. reflexivity. Qed.

Lemma exodus_genesis_run :
  Samples.run [Samples.exodus; Samples.genesis] None
  = Complete Samples.exodus_genesis_outputs.
Proof. vm_compute. reflexivity. Qed.

Lemma canon_member (code : string) :
  bool_decide (code ∈ PROTESTANT_CANON_CODES) = true →
  code ∈ PROTESTANT_CANON_CODES.
Proof. apply bool_decide_eq_true. Qed.

(** ** The primitives on sample values *)

Example int_samples :
  Py.int (Some " 12 ") = Some 12 ∧ Py.int (Some "+1_0") = Some 10 ∧
  Py.int (Some "-07") = Some (-7) ∧ Py.int (Some "1__0") = None ∧
  Py.int (Some "2-3") = None ∧ Py.int (Some "") = None ∧ Py.int None = None ∧
  Py.int (Some (String "028" "5")) = None ∧ Py.int (Some "1 2") = None.
Proof. vm_compute. auto 10. Qed.

Example string_samples :
  Py.strip "  a b  " = "a b" ∧ Py.upper "1 Cor" = "1 COR" ∧
  Py.strip (String "028" "a" +:+ String "031" "") = "a" ∧
  clean_text (" In   the" +:+ String "010" " beginning ") = "In the beginning" ∧
  Py.split "009" (String "009" "a" +:+ String "009" "") = [""; "a"; ""] ∧
  Py.str_of_int 150 = "150".
Proof. vm_compute. auto 10. Qed.

Example pattern_samples :
  parse_ref "  2 Kgs. 4.10- 12 " = Some ("2 Kgs", "4", "10") ∧
  parse_ref "  2 Kgs. 4.10 - 12 " = None ∧
  parse_ref "12 Gen1.1" = Some ("12 Gen", "1", "1") ∧
  parse_ref "gen 1.1-Gen.2.3" = Some ("gen", "1", "1") ∧
  parse_ref "Gen 1:1" = None ∧ parse_ref "Gen.1.1-" = None ∧
  parse_ref ("Gen.1.1" +:+ String "010" "") = Some ("Gen", "1", "1").
Proof. vm_compute. auto 10. Qed.

(** ** Order of the book metadata *)

(** C1, as stated, fails: a document that lists Exodus before Genesis
    yields metadata in that order, which is not the canonical one. *)
Lemma meta_order_counterexample :
  ∃ outs,
    Samples.run [Samples.exodus; Samples.genesis] None = Complete outs ∧
    book_abbr <$> bibleMeta outs = ["EXO"; "GEN"] ∧
    ¬ canonically_ordered (book_abbr <$> bibleMeta outs).
Proof.
  eexists. split; [vm_compute; reflexivity|]. split; [reflexivity|].
  simpl. intros H. apply Sorted_inv in H as [_ H].
  apply HdRel_inv in H. vm_compute in H. lia.
Qed.

(** C1 (amended): when no admitted book code occurs twice in the source
    document, the metadata written to the book metadata artifact is the
    list of the retained books as the loop over the book elements built
    it, so it follows the order of the book elements in the document:
    its codes are duplicate-free and form a subsequence of the admitted
    codes in document order. *)
Theorem meta_follows_document_order (inp : Inputs) (outs : Outputs)
    (booknames_root root : Element) :
  main inp = Complete outs →
  booknames_source inp = Parsed booknames_root →
  usfx_source inp = Parsed root →
  NoDup (admitted_codes (find_books root)) →
  bibleMeta outs
  = bible_meta_list (extract (read_book_names booknames_root) (find_books root))
  ∧ book_abbr <$> bibleMeta outs `sublist_of` admitted_codes (find_books root)
  ∧ NoDup (book_abbr <$> bibleMeta outs).
Proof.
  intros (bn & root' & Hbn & Hroot & ->)%main_complete Hnames Hsrc Hnd.
  rewrite Hbn in Hnames. injection Hnames as ->.
  rewrite Hroot in Hsrc. injection Hsrc as ->. simpl.
  unfold final_meta_list.
  rewrite reorder_id.
  - split; [done|]. split; [apply extract_meta_sublist|].
    eapply sublist_NoDup; [exact Hnd|]. apply extract_meta_sublist.
  - by rewrite extract_book_order.
  - rewrite extract_book_order. apply extract_meta_sublist.
Qed.

Lemma meta_follows_document_order_witness :
  bibleMeta Samples.exodus_genesis_outputs
  = bible_meta_list (extract (read_book_names Samples.booknames)
       (find_books (Samples.usfx [Samples.exodus; Samples.genesis])))
  ∧ book_abbr <$> bibleMeta Samples.exodus_genesis_outputs
      `sublist_of`
      admitted_codes (find_books (Samples.usfx [Samples.exodus; Samples.genesis]))
  ∧ NoDup (book_abbr <$> bibleMeta Samples.exodus_genesis_outputs).
Proof.
  apply (meta_follows_document_order
           (Samples.inputs [Samples.exodus; Samples.genesis] None)).
  - exact exodus_genesis_run.
  - reflexivity.
  - reflexivity.
  - apply (bool_decide_unpack _). vm_compute. exact I.
Defined.

(** ** Which book tokens a citation may use *)




(** ** Verse markers *)

(** C3 fails on the code: the conversion of the new verse id is the
    first statement of the [try] block, so a marker whose id is not a
    number skips the flush and the text collected for the previous
    verse is lost; with a numeric id the same text is stored. *)
Theorem invalid_verse_id_drops_previous_verse :
  (∃ outs, Samples.run [Samples.genesis_bridged] None = Complete outs ∧
           webBibleText outs !! "GEN 1:1" = None ∧
           webBibleText outs = ∅) ∧
  (∃ outs, Samples.run [Samples.genesis_unclosed] None = Complete outs ∧
           webBibleText outs !! "GEN 1:1" = Some "In the beginning").
Proof.
  split; eexists; (split; [vm_compute; reflexivity|]);
    repeat split; vm_compute; reflexivity.
Qed.

(** The step behind it: on a verse marker with an invalid id nothing is
    stored and collecting stops, whatever was being collected. *)
Lemma invalid_verse_id_step (abbr : string) (chapter : Z) (st : VerseState)
    (node : Element) :
  has_tag "v" node = true → Py.int (get "id" node) = None →
  let st' := process_inner_node abbr chapter st node in
  bible_text_dict st' = bible_text_dict st ∧ collecting_text_for_verse st' = 0.
Proof.
  intros Hv Hid. unfold process_inner_node. rewrite Hv, Hid. simpl.
  destruct (tail node) as [tl|]; [|done].
  by rewrite andb_false_r.
Qed.

(** ** Text of word and character runs *)

(** C4, as stated, fails: the text of a character run is not appended
    to the buffer, and does not reach the stored verse text. *)
Lemma char_text_counterexample :
  verse_text_buffer
    (process_inner_node "GEN" 1 Samples.collecting (Samples.char "Yahweh"))
  = "And " ∧
  ∃ outs, Samples.run [Samples.genesis_char] None = Complete outs ∧
          webBibleText outs !! "GEN 1:1" = Some "And God".
Proof.
  split; [vm_compute; reflexivity|].
  eexists. split; vm_compute; reflexivity.
Qed.

(** C4 (amended): while a verse is being collected, a word run node
    appends its own text, stripped and followed by a single space when
    it is not empty, and then its trailing text; a character run node
    appends its trailing text only. *)
Theorem word_text_appended (abbr : string) (chapter : Z) (st : VerseState)
    (node : Element) :
  0 < collecting_text_for_verse st →
  let st' := process_inner_node abbr chapter st node in
  (tag node = "w" →
   verse_text_buffer st' = verse_text_buffer st +:+ own_text node +:+ tail_text node)
  ∧ (tag node = "char" →
     verse_text_buffer st' = verse_text_buffer st +:+ tail_text node).
Proof.
  intros Hcol. apply Z.ltb_lt in Hcol.
  unfold process_inner_node, has_tag, own_text, tail_text, add_text.
  split; intros ->; simpl; rewrite Hcol; simpl.
  - destruct (text node) as [tx|], (tail node) as [tl|]; simpl;
      try (destruct tx as [|c tx]; simpl);
      try destruct (Py.truthy (Py.strip _)); try destruct (Py.truthy tl);
      simpl; by rewrite ?app_assoc, ?app_nil_l, ?app_nil_r.
  - destruct (text node) as [tx|], (tail node) as [tl|]; simpl;
      rewrite ?andb_false_r, ?andb_true_r; simpl;
      try destruct (Py.truthy tl);
      simpl; by rewrite ?app_assoc, ?app_nil_l, ?app_nil_r.
Qed.

Lemma word_text_appended_witness :
  let st' := process_inner_node "GEN" 1 Samples.collecting (Samples.w "God") in
  (tag (Samples.w "God") = "w" →
   verse_text_buffer st'
   = verse_text_buffer Samples.collecting +:+ own_text (Samples.w "God")
       +:+ tail_text (Samples.w "God"))
  ∧ (tag (Samples.w "God") = "char" →
     verse_text_buffer st'
     = verse_text_buffer Samples.collecting +:+ tail_text (Samples.w "God")).
Proof.
  apply (word_text_appended "GEN" 1 Samples.collecting (Samples.w "God")).
  reflexivity.
Defined.

(** ** Standardization examples *)

(** C5: with GEN, 1CO and ROM among the known codes, the three sample
    citations standardize as listed (the range tail is dropped), and
    the unknown book of ["Xyz.1.1"] yields no verse id. *)
Theorem standardize_examples (known : gset string) :
  "GEN" ∈ known → "1CO" ∈ known → "ROM" ∈ known →
  known ⊆ PROTESTANT_CANON_CODES →
  standardize_verse_ref "Gen.1.1" ABBR_MAP known = Some "GEN 1:1" ∧
  standardize_verse_ref "1 Cor.3.16" ABBR_MAP known = Some "1CO 3:16" ∧
  standardize_verse_ref "Rom 8.28-30" ABBR_MAP known = Some "ROM 8:28" ∧
  standardize_verse_ref "Xyz.1.1" ABBR_MAP known = None.
Proof.
  intros Hgen Hco Hrom Hsub. rewrite !standardize_parse.
  replace (parse_ref "Gen.1.1") with (Some ("Gen", "1", "1"))
    by (vm_compute; reflexivity).
  replace (parse_ref "1 Cor.3.16") with (Some ("1 Cor", "3", "16"))
    by (vm_compute; reflexivity).
  replace (parse_ref "Rom 8.28-30") with (Some ("Rom", "8", "28"))
    by (vm_compute; reflexivity).
  replace (parse_ref "Xyz.1.1") with (Some ("Xyz", "1", "1"))
    by (vm_compute; reflexivity).
  unfold resolve_book.
  replace (ABBR_MAP !! "Gen") with (Some "GEN") by (vm_compute; reflexivity).
  replace (ABBR_MAP !! "1 Cor") with (Some "1CO") by (vm_compute; reflexivity).
  replace (ABBR_MAP !! "Rom") with (Some "ROM") by (vm_compute; reflexivity).
  replace (ABBR_MAP !! "Xyz") with (@None string) by (vm_compute; reflexivity).
  rewrite (bool_decide_eq_true_2 _ Hgen), (bool_decide_eq_true_2 _ Hco),
    (bool_decide_eq_true_2 _ Hrom).
  repeat split; [reflexivity..|].
  assert (Hno : ∀ x, bool_decide (x ∈ PROTESTANT_CANON_CODES) = false →
                     bool_decide (x ∈ known) = false).
  { intros x Hx. apply bool_decide_eq_false in Hx.
    apply bool_decide_eq_false. intros Hin. apply Hx, Hsub, Hin. }
  rewrite Hno by (vm_compute; reflexivity).
  replace (Py.upper "Xyz") with "XYZ" by (vm_compute; reflexivity).
  by rewrite Hno by (vm_compute; reflexivity).
Qed.

Lemma standardize_examples_witness :
  standardize_verse_ref "Gen.1.1" ABBR_MAP PROTESTANT_CANON_CODES = Some "GEN 1:1" ∧
  standardize_verse_ref "1 Cor.3.16" ABBR_MAP PROTESTANT_CANON_CODES = Some "1CO 3:16" ∧
  standardize_verse_ref "Rom 8.28-30" ABBR_MAP PROTESTANT_CANON_CODES = Some "ROM 8:28" ∧
  standardize_verse_ref "Xyz.1.1" ABBR_MAP PROTESTANT_CANON_CODES = None.
Proof.
  apply (standardize_examples PROTESTANT_CANON_CODES).
  - apply canon_member. vm_compute. reflexivity.
  - apply canon_member. vm_compute. reflexivity.
  - apply canon_member. vm_compute. reflexivity.
  - reflexivity.
Defined.

(** ** The cross-reference graph *)

(** Keys and neighbours of the graph are keys of the verse text. *)
Lemma graph_in_text (inp : Inputs) (outs : Outputs) (A : string) (l : list string) :
  main inp = Complete outs →
  crossRefs outs !! A = Some l →
  is_Some (webBibleText outs !! A) ∧
  (∀ B, B ∈ l → is_Some (webBibleText outs !! B)).
Proof.
  intros (refs & -> & Hok)%run_graph_ok (s & Hs & ->)%lookup_finalize.
  destruct (Hok A s Hs) as (_ & HA & _ & Hsub & _).
  split.
  - by apply elem_of_dom.
  - intros B HB%elem_of_sorted_list. apply elem_of_dom. by apply Hsub.
Qed.

(** C6: the graph written to the cross-reference artifact is symmetric:
    a neighbour [B] of a key [A] is itself a key, and [A] is among its
    neighbours. *)
Theorem cross_refs_symmetric (inp : Inputs) (outs : Outputs)
    (A B : string) (l : list string) :
  main inp = Complete outs →
  crossRefs outs !! A = Some l → B ∈ l →
  ∃ l', crossRefs outs !! B = Some l' ∧ A ∈ l'.
Proof.
  intros (refs & -> & Hok)%run_graph_ok.
  intros (s & Hs & ->)%lookup_finalize HB%elem_of_sorted_list.
  destruct (Hok A s Hs) as (_ & _ & _ & _ & Hsym).
  destruct (Hsym B HB) as (t & Ht & HA).
  exists (sorted_list t). split.
  - apply lookup_finalize. eauto.
  - by apply elem_of_sorted_list.
Qed.

Lemma cross_refs_symmetric_witness :
  ∃ l', crossRefs Samples.genesis_outputs !! "GEN 1:2" = Some l' ∧ "GEN 1:1" ∈ l'.
Proof.
  apply (cross_refs_symmetric
           (Samples.inputs [Samples.genesis] (Some [Samples.ref_line]))
           Samples.genesis_outputs "GEN 1:1" "GEN 1:2" ["GEN 1:2"]).
  - exact genesis_run.
  - vm_compute. reflexivity.
  - apply list_elem_of_here.
Defined.

(** C7: every key of the graph and every verse id in an adjacency list
    is a key of the verse text mapping; no list contains its own key;
    every list is sorted and free of duplicates. *)
Theorem cross_refs_valid (inp : Inputs) (outs : Outputs)
    (A : string) (l : list string) :
  main inp = Complete outs →
  crossRefs outs !! A = Some l →
  is_Some (webBibleText outs !! A) ∧
  (∀ B, B ∈ l → is_Some (webBibleText outs !! B)) ∧
  (A ∉ l) ∧
  StronglySorted String.le l ∧
  NoDup l.
Proof.
  intros (refs & -> & Hok)%run_graph_ok (s & Hs & ->)%lookup_finalize.
  destruct (Hok A s Hs) as (_ & HA & Hself & Hsub & _).
  repeat split.
  - by apply elem_of_dom.
  - intros B HB%elem_of_sorted_list. apply elem_of_dom. by apply Hsub.
  - by rewrite elem_of_sorted_list.
  - apply sorted_list_sorted.
  - apply sorted_list_NoDup.
Qed.

Lemma cross_refs_valid_witness :
  is_Some (webBibleText Samples.genesis_outputs !! "GEN 1:1") ∧
  (∀ B, B ∈ ["GEN 1:2"] → is_Some (webBibleText Samples.genesis_outputs !! B)) ∧
  ("GEN 1:1" ∉ ["GEN 1:2"]) ∧
  StronglySorted String.le ["GEN 1:2"] ∧
  NoDup ["GEN 1:2"].
Proof.
  apply (cross_refs_valid
           (Samples.inputs [Samples.genesis] (Some [Samples.ref_line]))
           Samples.genesis_outputs "GEN 1:1" ["GEN 1:2"]).
  - exact genesis_run.
  - vm_compute. reflexivity.
Defined.


(** C10: no key of the graph has an empty adjacency list. *)
Theorem cross_refs_nonempty (inp : Inputs) (outs : Outputs)
    (A : string) (l : list string) :
  main inp = Complete outs →
  crossRefs outs !! A = Some l →
  l ≠ [].
Proof.
  intros (refs & -> & Hok)%run_graph_ok (s & Hs & ->)%lookup_finalize.
  destruct (Hok A s Hs) as (Hne & _).
  intros Hnil. by apply Hne, sorted_list_nil.
Qed.

Lemma cross_refs_nonempty_witness : ["GEN 1:2"] ≠ @nil string.
Proof.
  apply (cross_refs_nonempty
           (Samples.inputs [Samples.genesis] (Some [Samples.ref_line]))
           Samples.genesis_outputs "GEN 1:1" ["GEN 1:2"]).
  - exact genesis_run.
  - vm_compute. reflexivity.
Defined.

(** ** Citations with leading zeros *)

(** C9: a citation token whose chapter or verse digits start with a zero
    standardizes to a verse id that keeps those digits; the keys of the
    verse text mapping are printed from numbers and have no leading
    zero, so that id is not a key of the verse text mapping, and it is
    neither a key of the graph nor a member of an adjacency list. *)
Theorem leading_zero_never_linked (inp : Inputs) (outs : Outputs)
    (known : gset string) (t bp ch vs id : string) :
  main inp = Complete outs →
  known ⊆ PROTESTANT_CANON_CODES →
  parse_ref t = Some (bp, ch, vs) →
  leading_zero ch ∨ leading_zero vs →
  standardize_verse_ref t ABBR_MAP known = Some id →
  (∃ code, code ∈ known ∧ id = verse_id code ch vs) ∧
  webBibleText outs !! id = None ∧
  crossRefs outs !! id = None ∧
  (∀ A l, crossRefs outs !! A = Some l → id ∉ l).
Proof.
  intros Hrun Hknown Hp Hz Hstd.
  rewrite standardize_parse, Hp in Hstd.
  apply resolve_book_Some in Hstd as (code & Hcode & ->).
  destruct (parse_ref_digits _ _ _ _ Hp) as [Hch _].
  assert (Hnokey : webBibleText outs !! verse_id code ch vs = None).
  { apply eq_None_not_Some. intros Hsome.
    apply (run_keys_ok _ _ Hrun) in Hsome.
    eapply leading_zero_not_key; eauto. }
  split; [eauto|]. split; [done|].
  split.
  - apply eq_None_not_Some. intros [l Hl].
    destruct (graph_in_text inp outs _ l Hrun Hl) as [Hin _].
    rewrite Hnokey in Hin. by destruct Hin.
  - intros A l Hl Hin.
    destruct (graph_in_text inp outs _ l Hrun Hl) as [_ Hall].
    apply Hall in Hin. rewrite Hnokey in Hin. by destruct Hin.
Qed.

Lemma leading_zero_never_linked_witness :
  standardize_verse_ref "Gen.01.1" ABBR_MAP PROTESTANT_CANON_CODES
    = Some "GEN 01:1" ∧
  ((∃ code, code ∈ PROTESTANT_CANON_CODES ∧ "GEN 01:1" = verse_id code "01" "1") ∧
   webBibleText Samples.genesis_outputs !! "GEN 01:1" = None ∧
   crossRefs Samples.genesis_outputs !! "GEN 01:1" = None ∧
   (∀ A l, crossRefs Samples.genesis_outputs !! A = Some l → "GEN 01:1" ∉ l)).
Proof.
  split; [vm_compute; reflexivity|].
  apply (leading_zero_never_linked
           (Samples.inputs [Samples.genesis] (Some [Samples.ref_line]))
           Samples.genesis_outputs PROTESTANT_CANON_CODES
           "Gen.01.1" "Gen" "01" "1" "GEN 01:1").
  - exact genesis_run.
  - reflexivity.
  - vm_compute. reflexivity.
  - left. by exists "1".
  - vm_compute. reflexivity.
Defined.

(* ================================================================== *)
(** * Further properties of the citation standardizer *)
(* ================================================================== *)

Section standardizer_shape.
Import Re ReSpec.

Lemma verse_pattern_nonempty_groups (s : string) (m : gmap nat string) :
  match_ verse_pattern s = Some m →
  ∃ g1 g2 g3, m = <[3%nat := g3]> (<[2%nat := g2]> (<[1%nat := g1]> ∅)) ∧
              g1 ≠ "" ∧ g2 ≠ "" ∧ g3 ≠ "".
Proof.
  unfold match_. intros H.
  apply run_sound in H as (w & rest & caps & -> & Hd & [= <-]).
  unfold verse_pattern, range_tail, Plus, Opt, Lit in Hd. simpl in Hd.
  repeat match goal with
         | H : ∃ _, _ |- _ => destruct H
         | H : _ ∧ _ |- _ => destruct H
         | H : _ ∨ _ |- _ => destruct H
         end; subst;
    (eexists _, _, _; split; [reflexivity|]);
    repeat split;
    match goal with
    | |- ?x ≠ "" => intros Hx; apply (f_equal String.length) in Hx;
                    rewrite ?length_app in Hx; simpl in Hx; lia
    end.
Qed.

Lemma parse_ref_nonempty (t bp ch vs : string) :
  parse_ref t = Some (bp, ch, vs) → ch ≠ "" ∧ vs ≠ "".
Proof.
  unfold parse_ref. destruct (match_ verse_pattern t) as [m|] eqn:Hm; [|done].
  apply verse_pattern_nonempty_groups in Hm as (g1 & g2 & g3 & -> & _ & H2 & H3).
  unfold ref_parts, group.
  rewrite fmap_Some. intros (m & [= <-] & [= _ -> ->]).
  by rewrite lookup_insert_eq, lookup_insert_ne, lookup_insert_eq.
Qed.
End standardizer_shape.

(** X1: a verse id returned by the standardizer has the form
    ["<code> <chapter>:<verse>"], where the code belongs to the set of
    known codes it was given and chapter and verse are non-empty digit
    strings. *)
Theorem standardize_shape (t : string) (abbr : gmap string string)
    (known : gset string) (id : string) :
  standardize_verse_ref t abbr known = Some id →
  ∃ code ch vs,
    id = verse_id code ch vs ∧ code ∈ known ∧
    ch ≠ "" ∧ vs ≠ "" ∧
    ReSpec.all Py.is_digit ch = true ∧ ReSpec.all Py.is_digit vs = true.
Proof.
  rewrite standardize_parse.
  destruct (parse_ref t) as [[[bp ch] vs]|] eqn:Hp; [|done].
  intros (code & Hcode & ->)%resolve_book_Some.
  destruct (parse_ref_digits _ _ _ _ Hp), (parse_ref_nonempty _ _ _ _ Hp).
  exists code, ch, vs. done.
Qed.

Lemma standardize_shape_witness :
  ∃ code ch vs,
    "ROM 8:28" = verse_id code ch vs ∧ code ∈ PROTESTANT_CANON_CODES ∧
    ch ≠ "" ∧ vs ≠ "" ∧
    ReSpec.all Py.is_digit ch = true ∧ ReSpec.all Py.is_digit vs = true.
Proof.
  apply (standardize_shape "Rom 8.28-30" ABBR_MAP PROTESTANT_CANON_CODES).
  vm_compute. reflexivity.
Defined.

(** ** The tables of the script *)

Lemma dict_of_literal_lookup (l : list (string * string)) (k v : string) :
  dict_of_literal l !! k = Some v → (k, v) ∈ l.
Proof.
  unfold dict_of_literal.
  assert (H : ∀ (m : gmap string string),
             fold_left (λ m kv, <[kv.1 := kv.2]> m) l m !! k = Some v →
             (k, v) ∈ l ∨ m !! k = Some v).
  { induction l as [|[k' v'] l IH]; intros m; simpl; [auto|].
    intros [Hin|Hm]%IH; [left; by right|].
    destruct (decide (k' = k)) as [->|Hne].
    - rewrite lookup_insert_eq in Hm. injection Hm as ->. left. by left.
    - rewrite lookup_insert_ne in Hm by done. by right. }
  intros [Hin|Hm]%H; [done|]. by rewrite lookup_empty in Hm.
Qed.

(** The abbreviation table agrees with the two direct matches: a key
    that is itself a canon code, or becomes one in upper case, is mapped
    to that code; and every value is a non-empty canon code. *)
Lemma abbr_map_consistent (bp ca : string) :
  ABBR_MAP !! bp = Some ca →
  Py.truthy ca = true ∧ ca ∈ PROTESTANT_CANON_CODES ∧
  (bp ∈ PROTESTANT_CANON_CODES → bp = ca) ∧
  (Py.upper bp ∈ PROTESTANT_CANON_CODES → Py.upper bp = ca).
Proof.
  intros Hin%dict_of_literal_lookup.
  assert (Hall : Forall (λ kv : string * string,
             Py.truthy kv.2 = true ∧ kv.2 ∈ PROTESTANT_CANON_CODES ∧
             (kv.1 ∈ PROTESTANT_CANON_CODES → kv.1 = kv.2) ∧
             (Py.upper kv.1 ∈ PROTESTANT_CANON_CODES → Py.upper kv.1 = kv.2))
            abbr_literal).
  { apply (bool_decide_unpack _). vm_compute. exact I. }
  rewrite Forall_forall in Hall. by apply (Hall (bp, ca)).
Qed.

Lemma canon_code_upper (code : string) :
  code ∈ PROTESTANT_CANON_CODES → Py.upper code = code.
Proof.
  unfold PROTESTANT_CANON_CODES. rewrite elem_of_list_to_set.
  revert code. apply Forall_forall.
  apply (bool_decide_unpack _). vm_compute. exact I.
Qed.

(** X2: extracting more books never removes or changes an accepted
    citation: a verse id obtained with a set of known codes is obtained
    again with every larger set of canon codes. *)
Theorem standardize_monotone (t id : string) (known known' : gset string) :
  known ⊆ known' → known' ⊆ PROTESTANT_CANON_CODES →
  standardize_verse_ref t ABBR_MAP known = Some id →
  standardize_verse_ref t ABBR_MAP known' = Some id.
Proof.
  intros Hsub Hcanon. rewrite !standardize_parse.
  destruct (parse_ref t) as [[[bp ch] vs]|]; [|done].
  unfold resolve_book.
  destruct (ABBR_MAP !! bp) as [ca|] eqn:Hca.
  - destruct (abbr_map_consistent bp ca Hca) as (Ht & _ & Hbp & Hup).
    rewrite Ht. simpl.
    case_bool_decide as H1.
    { intros [= <-]. by rewrite bool_decide_eq_true_2 by auto. }
    case_bool_decide as H2.
    { intros [= <-]. rewrite <- (Hbp (Hcanon _ (Hsub _ H2))).
      by rewrite bool_decide_eq_true_2 by auto. }
    case_bool_decide as H3; [|done].
    intros [= <-]. rewrite <- (Hup (Hcanon _ (Hsub _ H3))).
    by rewrite bool_decide_eq_true_2 by auto.
  - case_bool_decide as H2.
    { intros [= <-]. by rewrite bool_decide_eq_true_2 by auto. }
    case_bool_decide as H3; [|done].
    intros [= <-]. case_bool_decide as H4.
    + by rewrite (canon_code_upper bp) by auto.
    + by rewrite bool_decide_eq_true_2 by auto.
Qed.

Lemma standardize_monotone_witness :
  standardize_verse_ref "Gen.1.1" ABBR_MAP PROTESTANT_CANON_CODES
  = Some "GEN 1:1".
Proof.
  apply (standardize_monotone "Gen.1.1" "GEN 1:1" {["GEN"]}).
  - apply (bool_decide_unpack _). vm_compute. exact I.
  - reflexivity.
  - vm_compute. reflexivity.
Defined.

(* ================================================================== *)
(** * Further properties of the text extractor *)
(* ================================================================== *)

Section cleaning.

Lemma collapse_tidy (b : bool) (s : string) :
  tidy (Py.collapse_ws_from b s) = true ∧
  (b = true → head_space (Py.collapse_ws_from b s) = false).
Proof.
  revert b. induction s as [|c s IH]; intros b; simpl; [done|].
  destruct (Py.is_space c) eqn:Hc.
  - destruct b; [apply IH|].
    destruct (IH true) as [Ht Hh]. simpl. rewrite Ht, Hh by done. done.
  - destruct (IH false) as [Ht _]. simpl. rewrite Hc, Ht. done.
Qed.

Lemma lstrip_tidy (s : string) :
  tidy s = true → tidy (Py.lstrip_with Py.is_space s) = true.
Proof.
  induction s as [|c s IH]; simpl; [done|].
  destruct (Py.is_space c) eqn:Hc; simpl; rewrite ?Hc; [|done].
  intros [_ H]%andb_true_iff. auto.
Qed.

Lemma lstrip_head (s : string) :
  head_space (Py.lstrip_with Py.is_space s) = false.
Proof.
  induction s as [|c s IH]; simpl; [done|].
  destruct (Py.is_space c) eqn:Hc; simpl; [done|]. by rewrite Hc.
Qed.

Lemma lstrip_id (s : string) :
  head_space s = false → Py.lstrip_with Py.is_space s = s.
Proof. destruct s as [|c s]; simpl; [done|]. by intros ->. Qed.

Lemma rstrip_cons (c : ascii) (s : string) :
  Py.rstrip_with Py.is_space (String c s)
  = match Py.rstrip_with Py.is_space s with
    | EmptyString => if Py.is_space c then EmptyString else String c EmptyString
    | r => String c r
    end.
Proof. reflexivity. Qed.

Lemma rstrip_head (s : string) :
  head_space s = false → head_space (Py.rstrip_with Py.is_space s) = false.
Proof.
  destruct s as [|c s]; [done|]. rewrite rstrip_cons. simpl. intros Hc.
  destruct (Py.rstrip_with Py.is_space s); simpl; by rewrite Hc.
Qed.

Lemma rstrip_idem (s : string) :
  Py.rstrip_with Py.is_space (Py.rstrip_with Py.is_space s)
  = Py.rstrip_with Py.is_space s.
Proof.
  induction s as [|c s IH]; [done|]. rewrite rstrip_cons.
  destruct (Py.rstrip_with Py.is_space s) as [|c' r] eqn:Hr.
  - destruct (Py.is_space c) eqn:Hc; [done|]. simpl. by rewrite Hc.
  - rewrite rstrip_cons, IH. done.
Qed.

Lemma rstrip_head_space (s : string) :
  head_space (Py.rstrip_with Py.is_space s) = true → head_space s = true.
Proof.
  destruct s as [|c s]; [by simpl|]. rewrite rstrip_cons. simpl.
  destruct (Py.rstrip_with Py.is_space s); simpl; [|done].
  destruct (Py.is_space c) eqn:Hc; simpl; [done | by rewrite Hc].
Qed.

Lemma rstrip_tidy (s : string) :
  tidy s = true → tidy (Py.rstrip_with Py.is_space s) = true.
Proof.
  induction s as [|c s IH]; [done|]. rewrite rstrip_cons.
  cbn [tidy]. intros [Hc Hs]%andb_true_iff. specialize (IH Hs).
  destruct (Py.rstrip_with Py.is_space s) as [|c' r] eqn:Hr.
  - destruct (Py.is_space c) eqn:Hsp; [done|]. simpl. by rewrite Hsp.
  - change (tidy (String c (String c' r)))
      with ((if Py.is_space c
             then Ascii.eqb c " " && negb (head_space (String c' r))
             else true) && tidy (String c' r)).
    rewrite IH, andb_true_r.
    destruct (Py.is_space c); [|done].
    apply andb_true_iff in Hc as [-> Hh]. simpl.
    destruct (Py.is_space c') eqn:Hh'; [|done].
    assert (head_space s = true) as Hs'
      by (apply rstrip_head_space; by rewrite Hr).
    by rewrite Hs' in Hh.
Qed.

Lemma collapse_id (s : string) :
  ∀ b, tidy s = true → (b = true → head_space s = false) →
       Py.collapse_ws_from b s = s.
Proof.
  induction s as [|c s IH]; intros b; simpl; [done|].
  intros [Hc Hs]%andb_true_iff Hb.
  destruct (Py.is_space c) eqn:Hsp.
  - destruct b; [by specialize (Hb eq_refl)|].
    apply andb_true_iff in Hc as [Heq Hh].
    apply Ascii.eqb_eq in Heq as ->.
    rewrite IH; [done|done|]. intros _. by apply negb_true_iff.
  - by rewrite IH.
Qed.

Lemma strip_idem (s : string) : Py.strip (Py.strip s) = Py.strip s.
Proof.
  unfold Py.strip.
  rewrite (lstrip_id (Py.rstrip_with _ _)).
  - apply rstrip_idem.
  - apply rstrip_head, lstrip_head.
Qed.

Lemma strip_tidy (s : string) : tidy s = true → tidy (Py.strip s) = true.
Proof. intros H. unfold Py.strip. by apply rstrip_tidy, lstrip_tidy. Qed.

Lemma strip_head (s : string) : head_space (Py.strip s) = false.
Proof. unfold Py.strip. apply rstrip_head, lstrip_head. Qed.

Lemma clean_text_fixed (s : string) : clean_text (clean_text s) = clean_text s.
Proof.
  unfold clean_text at 1. unfold Py.collapse_ws.
  rewrite collapse_id.
  - apply strip_idem.
  - apply strip_tidy, collapse_tidy.
  - done.
Qed.

End cleaning.

(** X3: cleaning a verse text is idempotent, and a cleaned text neither
    starts with white space nor contains white space other than single
    blanks between two other characters. *)
Theorem clean_text_idempotent (s : string) :
  clean_text (clean_text s) = clean_text s ∧
  head_space (clean_text s) = false ∧
  tidy (clean_text s) = true ∧
  Py.strip (clean_text s) = clean_text s.
Proof.
  split; [apply clean_text_fixed|]. split; [apply strip_head|].
  split; [apply strip_tidy, collapse_tidy | apply strip_idem].
Qed.

Section extractor_entries.
Context (codes : list string).

Lemma entries_ok_empty : entries_ok codes ∅.
Proof. intros k v Hk. by rewrite lookup_empty in Hk. Qed.

Lemma entries_ok_insert (d : gmap string string) (k v : string) :
  entries_ok codes d → key_of_books codes k → text_ok v →
  entries_ok codes (<[k := v]> d).
Proof.
  intros Hd Hk Hv k' v'. destruct (decide (k = k')) as [<-|Hne].
  - rewrite lookup_insert_eq. by intros [= <-].
  - rewrite lookup_insert_ne by done. apply Hd.
Qed.

Lemma flush_entries (abbr : string) (chapter : Z) (st : VerseState) :
  abbr ∈ codes → 0 < chapter →
  entries_ok codes (bible_text_dict st) →
  entries_ok codes (flush abbr chapter st).
Proof.
  intros Habbr Hc Hd. unfold flush.
  destruct (0 <? collecting_text_for_verse st) eqn:Hcol; [|done].
  destruct (Py.truthy _) eqn:Ht; [|done].
  apply entries_ok_insert; [done| |].
  - exists abbr, chapter, (collecting_text_for_verse st). repeat split; auto. lia.
  - split; [|apply clean_text_fixed]. intros Heq. by rewrite Heq in Ht.
Qed.

Lemma process_inner_node_entries abbr chapter st node :
  abbr ∈ codes → 0 < chapter →
  entries_ok codes (bible_text_dict st) →
  entries_ok codes (bible_text_dict (process_inner_node abbr chapter st node)).
Proof.
  intros Habbr Hc Hd. pose proof (flush_entries abbr chapter st Habbr Hc Hd).
  unfold process_inner_node.
  repeat (case_match; simpl; try done).
Qed.

Lemma process_block_entries abbr chapter last dict block :
  abbr ∈ codes → 0 < chapter → entries_ok codes dict →
  entries_ok codes (bible_text_dict (process_block abbr chapter last dict block)).
Proof.
  intros Habbr Hc Hd. unfold process_block.
  set (st0 := {| current_verse_num := 0; verse_text_buffer := "";
                 collecting_text_for_verse := 0;
                 last_verse_in_chapter := last; bible_text_dict := dict |}).
  assert (entries_ok codes (bible_text_dict st0)) as H0 by done. clearbody st0.
  revert st0 H0. induction (iter block) as [|n l IH]; intros st0 H0; simpl.
  - done.
  - apply IH. by apply process_inner_node_entries.
Qed.

Lemma process_children_entries abbr nodes st :
  abbr ∈ codes → entries_ok codes (book_text_dict st) →
  entries_ok codes (book_text_dict (process_children abbr nodes st)).
Proof.
  intros Habbr. revert st. induction nodes as [|n nodes IH]; intros st Hd; simpl.
  - done.
  - destruct (has_tag "c" n).
    + destruct (Py.int (get "id" n)); [by apply IH | done].
    + destruct (0 <? current_chapter_num st) eqn:Hc; [|by apply IH].
      apply IH. simpl. apply process_block_entries; [done|lia|done].
Qed.

End extractor_entries.

Section extractor_more.

Lemma entries_ok_mono (codes codes' : list string) (d : gmap string string) :
  codes ⊆ codes' → entries_ok codes d → entries_ok codes' d.
Proof.
  intros Hsub Hd k v Hk. destruct (Hd k v Hk) as [(a & c & n & ? & ? & ?) ?].
  split; [|done]. exists a, c, n. auto.
Qed.

Lemma process_book_entries names ex book :
  entries_ok (book_order ex) (text_dict ex) →
  entries_ok (book_order (process_book names ex book))
             (text_dict (process_book names ex book)).
Proof.
  intros Hd. unfold process_book.
  destruct (get "id" book) as [abbr|]; [|done].
  destruct (Py.truthy abbr && bool_decide (abbr ∈ PROTESTANT_CANON_CODES));
    simpl; [|done].
  apply process_children_entries; [set_solver|]. simpl.
  eapply entries_ok_mono; [|done]. set_solver.
Qed.

Lemma extract_entries names books :
  entries_ok (admitted_codes books) (text_dict (extract names books)).
Proof.
  rewrite <- (extract_book_order names books). unfold extract.
  assert (H0 : entries_ok
                 (book_order {| book_order := []; bible_meta_list := [];
                                text_dict := ∅ |})
                 (text_dict {| book_order := []; bible_meta_list := [];
                               text_dict := ∅ |})) by apply entries_ok_empty.
  revert H0. generalize {| book_order := []; bible_meta_list := [];
                           text_dict := (∅ : gmap string string) |}.
  induction books as [|b books IH]; intros ex H0; simpl; [done|].
  by apply IH, process_book_entries.
Qed.

(** The highest verse number announced so far. *)
Lemma process_inner_node_last abbr chapter st node :
  last_verse_in_chapter (process_inner_node abbr chapter st node)
  = match marker_number node with
    | Some n => Z.max (last_verse_in_chapter st) n
    | None => last_verse_in_chapter st
    end.
Proof.
  unfold process_inner_node, marker_number.
  destruct (has_tag "v" node).
  - destruct (Py.int (get "id" node)); simpl; by repeat case_match.
  - by repeat case_match.
Qed.

Lemma fold_max_ge (l : list Z) (init : Z) : init ≤ fold_left Z.max l init.
Proof.
  revert init. induction l as [|x l IH]; intros init; simpl; [lia|].
  specialize (IH (Z.max init x)). lia.
Qed.

Lemma process_children_counts abbr nodes st :
  Forall (λ n, 0 ≤ n) (chapter_verse_counts st) → 0 ≤ book_last_verse st →
  let st' := process_children abbr nodes st in
  Forall (λ n, 0 ≤ n) (chapter_verse_counts st') ∧ 0 ≤ book_last_verse st'.
Proof.
  assert (Hclose : ∀ st, Forall (λ n, 0 ≤ n) (chapter_verse_counts st) →
                         0 ≤ book_last_verse st →
                         Forall (λ n, 0 ≤ n) (close_chapter st)).
  { intros st0 H1 H2. unfold close_chapter.
    repeat case_match; rewrite ?Forall_app, ?Forall_singleton;
      repeat split; auto; lia. }
  revert st. induction nodes as [|n nodes IH]; intros st Hc Hl; simpl; [done|].
  destruct (has_tag "c" n).
  - destruct (Py.int (get "id" n)); simpl; [apply IH; simpl; auto; lia|auto].
  - destruct (0 <? current_chapter_num st); [|by apply IH].
    apply IH; simpl; [done|].
    unfold process_block.
    transitivity (book_last_verse st); [done|].
    set (st0 := {| current_verse_num := 0; verse_text_buffer := "";
                   collecting_text_for_verse := 0;
                   last_verse_in_chapter := book_last_verse st;
                   bible_text_dict := book_text_dict st |}).
    change (book_last_verse st) with (last_verse_in_chapter st0) at 1.
    generalize st0. induction (iter n) as [|x l IHl]; intros st1; simpl; [lia|].
    etrans; [|apply IHl]. rewrite process_inner_node_last.
    destruct (marker_number x); lia.
Qed.

Lemma process_book_meta_ok names ex book :
  Forall (meta_ok names) (bible_meta_list ex) →
  Forall (meta_ok names) (bible_meta_list (process_book names ex book)).
Proof.
  intros Hm. unfold process_book.
  destruct (get "id" book) as [abbr|]; [|done].
  destruct (Py.truthy abbr) eqn:Ht; simpl; [|done].
  case_bool_decide as Hin; simpl; [|done].
  match goal with |- context [close_chapter ?st] => set (st' := st) end.
  destruct (close_chapter st') as [|x counts] eqn:Hcl; [done|].
  apply Forall_app. split; [done|]. apply Forall_singleton.
  repeat split; simpl; [done..|].
  rewrite <- Hcl. unfold close_chapter.
  destruct (process_children_counts abbr (children book)
              {| chapter_verse_counts := []; book_last_verse := 0;
                 current_chapter_num := 0; book_text_dict := text_dict ex |})
    as [Hc Hl]; [done|simpl; lia|].
  fold st' in Hc, Hl.
  repeat case_match; rewrite ?Forall_app, ?Forall_singleton;
    repeat split; auto; lia.
Qed.

Lemma extract_meta_ok names books :
  Forall (meta_ok names) (bible_meta_list (extract names books)).
Proof.
  unfold extract.
  assert (H0 : Forall (meta_ok names)
                 (bible_meta_list {| book_order := []; bible_meta_list := [];
                                     text_dict := ∅ |})) by constructor.
  revert H0. generalize {| book_order := []; bible_meta_list := [];
                           text_dict := (∅ : gmap string string) |}.
  induction books as [|b books IH]; intros ex H0; simpl; [done|].
  by apply IH, process_book_meta_ok.
Qed.

(** The comprehension of step 3 keeps exactly the retained books. *)
Lemma final_meta_members names books (m : BookMeta) :
  m ∈ final_meta_list (extract names books)
  ↔ m ∈ bible_meta_list (extract names books).
Proof.
  unfold final_meta_list. rewrite list_elem_of_In, in_flat_map. split.
  - intros (c & _ & Hm). apply filter_In in Hm as [Hm _]. by apply list_elem_of_In.
  - intros Hm. exists (book_abbr m). split.
    + apply list_elem_of_In. rewrite extract_book_order.
      apply (sublist_subseteq _ _ (extract_meta_sublist names books)).
      by apply list_elem_of_fmap_2.
    + apply filter_In. split; [by apply list_elem_of_In|]. apply String.eqb_refl.
Qed.

Lemma read_book_names_truthy (booknames_root : Element) (code name : string) :
  read_book_names booknames_root !! code = Some name → name ≠ "".
Proof.
  unfold read_book_names.
  assert (H : ∀ (l : list Element) (m : gmap string string),
             (∀ c n, m !! c = Some n → n ≠ "") →
             ∀ c n, fold_left (λ m book_elem,
                 match get "code" book_elem, get "short" book_elem with
                 | Some code, Some short_name =>
                     if Py.truthy code && Py.truthy short_name
                     then <[code := short_name]> m else m
                 | _, _ => m
                 end) l m !! c = Some n → n ≠ "").
  { induction l as [|b l IH]; intros m Hm; simpl; [done|].
    apply IH. repeat case_match; try done.
    intros c n. destruct (decide (s = c)) as [->|].
    - rewrite lookup_insert_eq. intros [= <-].
      by destruct s0; [rewrite andb_false_r in *|]. 
    - rewrite lookup_insert_ne by done. apply Hm. }
  apply H. intros c n Hc. by rewrite lookup_empty in Hc.
Qed.

End extractor_more.

(** X4: every key of the verse text mapping is
    ["<code> <chapter>:<verse>"] for the code of an admitted book
    element of the scripture document (hence a canon code) and a
    positive chapter and verse number. *)
Theorem text_keys_wellformed (inp : Inputs) (outs : Outputs) (root : Element)
    (k : string) :
  main inp = Complete outs →
  usfx_source inp = Parsed root →
  is_Some (webBibleText outs !! k) →
  ∃ abbr c n,
    k = verse_key abbr c n ∧
    abbr ∈ admitted_codes (find_books root) ∧
    abbr ∈ PROTESTANT_CANON_CODES ∧ 0 < c ∧ 0 < n.
Proof.
  intros (bn & root' & _ & Hroot & ->)%main_complete Hsrc [v Hv].
  rewrite Hroot in Hsrc. injection Hsrc as ->. simpl in Hv.
  destruct (extract_entries _ _ k v Hv) as [(a & c & n & ? & Ha & ? & ?) _].
  exists a, c, n. repeat split; try done. by eapply admitted_codes_canon.
Qed.

Lemma text_keys_wellformed_witness :
  ∃ abbr c n,
    "GEN 1:1" = verse_key abbr c n ∧
    abbr ∈ admitted_codes (find_books (Samples.usfx [Samples.genesis])) ∧
    abbr ∈ PROTESTANT_CANON_CODES ∧ 0 < c ∧ 0 < n.
Proof.
  apply (text_keys_wellformed
           (Samples.inputs [Samples.genesis] (Some [Samples.ref_line]))
           Samples.genesis_outputs).
  - exact genesis_run.
  - reflexivity.
  - vm_compute. eauto.
Defined.

(** X5: every verse text stored is non-empty and already clean:
    cleaning it again (collapsing white space and trimming) changes
    nothing. *)
Theorem stored_text_clean (inp : Inputs) (outs : Outputs) (k v : string) :
  main inp = Complete outs →
  webBibleText outs !! k = Some v →
  v ≠ "" ∧ clean_text v = v.
Proof.
  intros (bn & root & _ & _ & ->)%main_complete Hv. simpl in Hv.
  by destruct (extract_entries _ _ k v Hv) as [_ ?].
Qed.

Lemma stored_text_clean_witness :
  "In the beginning" ≠ "" ∧ clean_text "In the beginning" = "In the beginning".
Proof.
  apply (stored_text_clean
           (Samples.inputs [Samples.genesis] (Some [Samples.ref_line]))
           Samples.genesis_outputs "GEN 1:1").
  - exact genesis_run.
  - vm_compute. reflexivity.
Defined.

Section key_injectivity.

Lemma str_of_int_inj (n n' : Z) :
  0 < n → 0 < n' → Py.str_of_int n = Py.str_of_int n' → n = n'.
Proof.
  destruct n as [|p|p], n' as [|p'|p']; try lia. intros _ _.
  rewrite !str_of_int_pos. intros H.
  apply (f_equal NilEmpty.uint_of_string) in H.
  rewrite !NilEmpty.usu in H. injection H as H.
  by apply DecimalPos.Unsigned.to_uint_inj in H as ->.
Qed.

End key_injectivity.

(** X6: two verses of canon books share a key only if they are the same
    verse: the key determines the book code, the chapter and the verse
    number. *)
Theorem verse_key_injective (abbr abbr' : string) (c n c' n' : Z) :
  abbr ∈ PROTESTANT_CANON_CODES → abbr' ∈ PROTESTANT_CANON_CODES →
  0 < c → 0 < n → 0 < c' → 0 < n' →
  verse_key abbr c n = verse_key abbr' c' n' →
  abbr = abbr' ∧ c = c' ∧ n = n'.
Proof.
  intros (a1 & a2 & a3 & ->)%canon_code_length
         (b1 & b2 & b3 & ->)%canon_code_length Hc Hn Hc' Hn' Heq.
  unfold verse_key, verse_id in Heq. rewrite !app_cons, !app_nil_l in Heq.
  injection Heq as -> -> -> Heq.
  apply digits_colon_split in Heq as [H1 H2];
    [|by apply str_of_int_digits..].
  apply str_of_int_inj in H1, H2; auto.
Qed.

Lemma verse_key_injective_witness : "GEN" = "GEN" ∧ 1 = 1 ∧ 2 = 2.
Proof.
  apply (verse_key_injective "GEN" "GEN" 1 2 1 2);
    try reflexivity; apply canon_member; vm_compute; reflexivity.
Defined.

(** X7: after a block, the running maximum of the chapter is the
    largest of its previous value and the numbers of all verse-start
    markers of the block with a valid id, whether or not any text was
    stored for them. *)
Theorem block_last_verse_is_max (abbr : string) (chapter last : Z)
    (dict : gmap string string) (block : Element) :
  last_verse_in_chapter (process_block abbr chapter last dict block)
  = fold_left Z.max (omap marker_number (iter block)) last.
Proof.
  unfold process_block.
  set (st0 := {| current_verse_num := 0; verse_text_buffer := "";
                 collecting_text_for_verse := 0;
                 last_verse_in_chapter := last; bible_text_dict := dict |}).
  change (fold_left Z.max (omap marker_number (iter block)) last)
    with (fold_left Z.max (omap marker_number (iter block))
            (last_verse_in_chapter st0)).
  generalize st0. induction (iter block) as [|x l IH]; intros st; simpl; [done|].
  rewrite IH, process_inner_node_last. by destruct (marker_number x).
Qed.

(** X8: a block without verse markers stores nothing and leaves the
    running maximum of the chapter unchanged, whatever text it holds. *)
Theorem block_without_markers (abbr : string) (chapter last : Z)
    (dict : gmap string string) (block : Element) :
  forallb (λ node, negb (is_marker node)) (iter block) = true →
  bible_text_dict (process_block abbr chapter last dict block) = dict ∧
  last_verse_in_chapter (process_block abbr chapter last dict block) = last.
Proof.
  unfold process_block.
  set (st0 := {| current_verse_num := 0; verse_text_buffer := "";
                 collecting_text_for_verse := 0;
                 last_verse_in_chapter := last; bible_text_dict := dict |}).
  assert (H0 : collecting_text_for_verse st0 = 0 ∧ bible_text_dict st0 = dict ∧
               last_verse_in_chapter st0 = last) by done.
  revert H0. generalize st0.
  induction (iter block) as [|x l IH]; intros st (Hc & Hd & Hl); simpl.
  - done.
  - intros [Hx Hall]%andb_true_iff. apply IH; [|done].
    unfold is_marker in Hx. apply negb_true_iff, orb_false_iff in Hx as [Hv Hve].
    unfold process_inner_node. rewrite Hv, Hve, Hc. done.
Qed.

Lemma block_without_markers_witness :
  bible_text_dict
    (process_block "GEN" 1 0 ∅ (Samples.p [Samples.w "The"; Samples.char "Title"]))
  = ∅ ∧
  last_verse_in_chapter
    (process_block "GEN" 1 0 ∅ (Samples.p [Samples.w "The"; Samples.char "Title"]))
  = 0.
Proof.
  apply (block_without_markers "GEN" 1 0 ∅
           (Samples.p [Samples.w "The"; Samples.char "Title"])).
  reflexivity.
Defined.

(** X9: an invalid chapter id ends the processing of the book: the
    nodes that follow the marker have no effect. *)
Theorem nodes_after_invalid_chapter_ignored (abbr : string)
    (before after : list Element) (marker : Element) (st : BookState) :
  has_tag "c" marker = true → Py.int (get "id" marker) = None →
  process_children abbr (before ++ marker :: after) st
  = process_children abbr (before ++ [marker]) st.
Proof.
  intros Hc Hid. revert st.
  induction before as [|x before IH]; intros st; simpl.
  - by rewrite Hc, Hid.
  - repeat case_match; auto.
Qed.

Lemma nodes_after_invalid_chapter_ignored_witness :
  process_children "GEN"
    ([Samples.c "1"; Samples.p [Samples.v "1" "In the beginning"; Samples.ve]]
       ++ Samples.c "two" :: [Samples.p [Samples.v "1" "Thus"; Samples.ve]])
    {| chapter_verse_counts := []; book_last_verse := 0;
       current_chapter_num := 0; book_text_dict := ∅ |}
  = process_children "GEN"
      ([Samples.c "1"; Samples.p [Samples.v "1" "In the beginning"; Samples.ve]]
         ++ [Samples.c "two"])
      {| chapter_verse_counts := []; book_last_verse := 0;
         current_chapter_num := 0; book_text_dict := ∅ |}.
Proof.
  apply (nodes_after_invalid_chapter_ignored "GEN").
  - reflexivity.
  - reflexivity.
Defined.

(** X10: book elements that fail the canon test have no effect: the
    extraction of a document equals that of its admitted book elements
    alone. *)
Theorem extract_ignores_rejected (names : gmap string string)
    (books : list Element) :
  extract names books = extract names (List.filter is_admitted books).
Proof.
  unfold extract.
  generalize {| book_order := []; bible_meta_list := [];
                text_dict := (∅ : gmap string string) |}.
  induction books as [|b books IH]; intros ex; simpl; [done|].
  unfold is_admitted at 1.
  destruct (admitted b) as [code|] eqn:Hb; simpl; [apply IH|].
  rewrite <- IH. f_equal.
  unfold process_book. unfold admitted in Hb.
  destruct (get "id" b) as [abbr|]; [|done].
  by destruct (Py.truthy abbr && bool_decide (abbr ∈ PROTESTANT_CANON_CODES)).
Qed.

(** X11: every entry of the book metadata artifact has a canon code, the
    display name of the book-name table or, failing that, the code
    itself, so never an empty name, at least one chapter, and no
    negative chapter length; and the artifact has at least one entry. *)
Theorem meta_entries_wellformed (inp : Inputs) (outs : Outputs)
    (booknames_root : Element) :
  main inp = Complete outs →
  booknames_source inp = Parsed booknames_root →
  bibleMeta outs ≠ [] ∧
  ∀ m, m ∈ bibleMeta outs →
    meta_ok (read_book_names booknames_root) m ∧ book_name m ≠ "".
Proof.
  intros Hrun Hnames.
  pose proof Hrun as (bn & root & Hbn & Hroot & ->)%main_complete.
  rewrite Hbn in Hnames. injection Hnames as ->. simpl.
  assert (Hne : bible_meta_list
                  (extract (read_book_names booknames_root) (find_books root))
                ≠ []).
  { intros Hnil. unfold main in Hrun. rewrite Hbn, Hroot in Hrun.
    destruct (bool_decide _); [discriminate Hrun|].
    destruct (find_books root); [discriminate Hrun|].
    rewrite Hnil in Hrun. discriminate Hrun. }
  set (ex := extract (read_book_names booknames_root) (find_books root)) in *.
  split.
  - destruct (bible_meta_list ex) as [|m l] eqn:Hl; [done|].
    assert (m ∈ final_meta_list ex) as Hm
      by (apply final_meta_members; fold ex; rewrite Hl; left).
    intros Hnil. rewrite Hnil in Hm. by apply elem_of_nil in Hm.
  - intros m Hm%final_meta_members.
    pose proof (extract_meta_ok (read_book_names booknames_root) (find_books root))
      as Hall.
    rewrite Forall_forall in Hall. specialize (Hall m Hm).
    split; [done|]. destruct Hall as (Hcode & Hname & _).
    rewrite Hname.
    destruct (read_book_names booknames_root !! book_abbr m) as [nm|] eqn:Hnm;
      simpl.
    + by eapply read_book_names_truthy.
    + by apply canon_code_length in Hcode as (? & ? & ? & ->).
Qed.

Lemma meta_entries_wellformed_witness :
  bibleMeta Samples.genesis_outputs ≠ [] ∧
  ∀ m, m ∈ bibleMeta Samples.genesis_outputs →
    meta_ok (read_book_names Samples.booknames) m ∧ book_name m ≠ "".
Proof.
  apply (meta_entries_wellformed
           (Samples.inputs [Samples.genesis] (Some [Samples.ref_line]))).
  - exact genesis_run.
  - reflexivity.
Defined.

(** X12: the list comprehension of step 3 keeps exactly the retained
    books: an entry is in the list written to the artifact if and only
    if the loop over the book elements retained it, also when a book
    code occurs twice in the document. *)
Theorem step3_keeps_retained_books (names : gmap string string)
    (books : list Element) (m : BookMeta) :
  m ∈ final_meta_list (extract names books)
  ↔ m ∈ bible_meta_list (extract names books).
Proof. apply final_meta_members. Qed.

(* ================================================================== *)
(** * Further properties of the linker *)
(* ================================================================== *)

Section commuting_folds.
Context {A B : Type} (f : A → B → B).
Hypothesis f_comm : ∀ a1 a2 b, f a1 (f a2 b) = f a2 (f a1 b).
Hypothesis f_idem : ∀ a b, f a (f a b) = f a b.

Local Abbreviation G := (fold_left (λ b a, f a b)).

Lemma fold_past (l : list A) (a : A) (b : B) : G l (f a b) = f a (G l b).
Proof.
  revert b. induction l as [|x l IH]; intros b; simpl; [done|].
  by rewrite <- IH, f_comm.
Qed.

Lemma fold_absorbs (l : list A) (a : A) (b : B) :
  a ∈ l → f a (G l b) = G l b.
Proof.
  revert b. induction l as [|x l IH]; intros b Hin.
  - by apply elem_of_nil in Hin.
  - apply elem_of_cons in Hin as [->|Hin]; simpl.
    + by rewrite <- (fold_past l x), f_idem.
    + by apply IH.
Qed.

Lemma fold_twice (l l' : list A) (b : B) :
  l' ⊆ l → G l' (G l b) = G l b.
Proof.
  induction l' as [|x l' IH]; intros Hsub; [done|]. simpl.
  rewrite (fold_absorbs l x b) by set_solver. apply IH. set_solver.
Qed.

Lemma fold_swap (l l' : list A) (b : B) : G l' (G l b) = G l (G l' b).
Proof.
  revert b. induction l as [|x l IH]; intros b; [done|].
  simpl. by rewrite IH, (fold_past l' x).
Qed.

Lemma fold_same_elements (l l' : list A) (b : B) :
  (∀ x, x ∈ l ↔ x ∈ l') → G l b = G l' b.
Proof.
  intros Hsame.
  rewrite <- (fold_twice l l' b) by (intros x; apply Hsame).
  rewrite fold_swap. apply fold_twice. intros x. apply Hsame.
Qed.

End commuting_folds.

Section link_algebra.

Lemma lookup_link (a b x : string) (refs : gmap string (gset string)) :
  a ≠ b →
  add_ref b a (add_ref a b refs) !! x
  = if decide (b = x) then Some (default ∅ (refs !! b) ∪ {[a]})
    else if decide (a = x) then Some (default ∅ (refs !! a) ∪ {[b]})
    else refs !! x.
Proof.
  intros Hne. rewrite !lookup_add_ref.
  destruct (decide (b = x)) as [<-|]; [|done].
  by destruct (decide (a = b)).
Qed.

Lemma link_idem (a b : string) (refs : gmap string (gset string)) :
  a ≠ b →
  add_ref b a (add_ref a b (add_ref b a (add_ref a b refs)))
  = add_ref b a (add_ref a b refs).
Proof.
  intros Hne. apply map_eq. intros x. rewrite !lookup_link by done.
  repeat case_decide; simplify_eq; simpl; try done; f_equal; set_solver.
Qed.

Lemma link_comm (a b c d : string) (refs : gmap string (gset string)) :
  a ≠ b → c ≠ d →
  add_ref b a (add_ref a b (add_ref d c (add_ref c d refs)))
  = add_ref d c (add_ref c d (add_ref b a (add_ref a b refs))).
Proof.
  intros Hab Hcd. apply map_eq. intros x. rewrite !lookup_link by done.
  repeat case_decide; simplify_eq; simpl; try done; f_equal; set_solver.
Qed.

End link_algebra.

Section line_effects.
Context (known_verses known_canon : gset string).

Lemma process_line_refs (st : LinkState) (line : string) :
  refs_intermediate (process_line known_verses known_canon st line)
  = line_effect known_verses known_canon line (refs_intermediate st).
Proof.
  unfold line_effect, process_line. by repeat case_match.
Qed.

(** A line either leaves the graph alone or links two distinct ids. *)
Lemma line_effect_cases (line : string) :
  (∀ refs, line_effect known_verses known_canon line refs = refs) ∨
  (∃ a b, a ≠ b ∧ a ∈ known_verses ∧ b ∈ known_verses ∧
          ∀ refs, line_effect known_verses known_canon line refs
                  = add_ref b a (add_ref a b refs)).
Proof.
  unfold line_effect, process_line.
  repeat (case_match; simpl; try (by left));
    repeat match goal with
           | H : _ && _ = true |- _ => apply andb_true_iff in H as [? ?]
           | H : bool_decide _ = true |- _ => apply bool_decide_eq_true in H
           | H : negb _ = true |- _ => apply negb_true_iff in H
           | H : String.eqb _ _ = false |- _ => apply String.eqb_neq in H
           end.
  right. eauto 10.
Qed.

Lemma line_effect_comm (l1 l2 : string) (refs : gmap string (gset string)) :
  line_effect known_verses known_canon l1
    (line_effect known_verses known_canon l2 refs)
  = line_effect known_verses known_canon l2
      (line_effect known_verses known_canon l1 refs).
Proof.
  destruct (line_effect_cases l1) as [H1|(a & b & Hab & _ & _ & H1)],
           (line_effect_cases l2) as [H2|(c & d & Hcd & _ & _ & H2)];
    rewrite ?H1, ?H2; try done.
  by apply link_comm.
Qed.

Lemma line_effect_idem (l : string) (refs : gmap string (gset string)) :
  line_effect known_verses known_canon l
    (line_effect known_verses known_canon l refs)
  = line_effect known_verses known_canon l refs.
Proof.
  destruct (line_effect_cases l) as [H1|(a & b & Hab & _ & _ & H1)];
    rewrite ?H1; try done.
  by apply link_idem.
Qed.

Lemma link_refs_fold (lines : list string) :
  refs_intermediate (link (Some lines) known_verses known_canon).1
  = fold_left (λ refs line, line_effect known_verses known_canon line refs)
      lines ∅.
Proof.
  assert (H : ∀ st,
             refs_intermediate
               (fold_left (process_line known_verses known_canon) lines st)
             = fold_left
                 (λ refs line, line_effect known_verses known_canon line refs)
                 lines (refs_intermediate st)).
  { induction lines as [|l lines IH]; intros st; simpl; [done|].
    by rewrite IH, process_line_refs. }
  apply (H initial_links).
Qed.

End line_effects.

(** X13: the graph depends on the set of lines of the cross-reference
    file only: neither the order of the lines nor repeated lines change
    it. *)
Theorem graph_depends_on_line_set (known_verses known_canon : gset string)
    (lines lines' : list string) :
  (∀ l, l ∈ lines ↔ l ∈ lines') →
  finalize (refs_intermediate (link (Some lines) known_verses known_canon).1)
  = finalize (refs_intermediate (link (Some lines') known_verses known_canon).1).
Proof.
  intros Hsame. rewrite !link_refs_fold. f_equal.
  apply (fold_same_elements (line_effect known_verses known_canon)); [| |done].
  - intros a1 a2 b. apply line_effect_comm.
  - intros a b. apply line_effect_idem.
Qed.

Lemma graph_depends_on_line_set_witness :
  finalize (refs_intermediate
              (link (Some [Samples.ref_line; "# note"])
                    (dom (webBibleText Samples.genesis_outputs)) {["GEN"]}).1)
  = finalize (refs_intermediate
                (link (Some ["# note"; Samples.ref_line; Samples.ref_line])
                      (dom (webBibleText Samples.genesis_outputs)) {["GEN"]}).1).
Proof.
  apply (graph_depends_on_line_set
           (dom (webBibleText Samples.genesis_outputs)) {["GEN"]}
           [Samples.ref_line; "# note"]
           ["# note"; Samples.ref_line; Samples.ref_line]).
  intros l. rewrite !elem_of_cons, elem_of_nil. tauto.
Defined.

Section counting.

Lemma degree_sum_insert (refs : gmap string (gset string)) (a : string)
    (s : gset string) :
  (degree_sum (<[a := s]> refs) + size (default ∅ (refs !! a))
   = degree_sum refs + size s)%nat.
Proof.
  unfold degree_sum.
  assert (Hcomm : ∀ (m : gmap string (gset string)) (j1 j2 : string)
            (z1 z2 : gset string) (y : nat),
            j1 ≠ j2 → m !! j1 = Some z1 → m !! j2 = Some z2 →
            (size z1 + (size z2 + y) = size z2 + (size z1 + y))%nat)
    by (intros; lia).
  destruct (refs !! a) as [s0|] eqn:Ha.
  - change (default ∅ (Some s0)) with s0.
    rewrite <- (insert_delete_eq refs a s).
    rewrite (map_fold_delete_L _ _ a s0 refs) by eauto.
    rewrite map_fold_insert_L; [lia|eauto|apply lookup_delete_eq].
  - replace (size (default (∅ : gset string) None)) with 0%nat
      by (symmetry; apply size_empty).
    rewrite map_fold_insert_L; [lia|eauto|done].
Qed.

Lemma degree_sum_link (known : gset string) (refs : gmap string (gset string))
    (a b : string) :
  a ≠ b → links_ok known refs →
  degree_sum (add_ref b a (add_ref a b refs))
  = (degree_sum refs
     + (if bool_decide (b ∈ default ∅ (refs !! a)) then 0 else 2))%nat.
Proof.
  intros Hne Hok.
  destruct (links_ok_default known refs a Hok) as (_ & _ & Ha).
  destruct (links_ok_default known refs b Hok) as (_ & _ & Hb).
  assert (Hsym : b ∈ default ∅ (refs !! a) ↔ a ∈ default ∅ (refs !! b)).
  { split; intros Hin.
    - destruct (Ha b Hin) as (t & Ht & Hin'). by rewrite Ht.
    - destruct (Hb a Hin) as (t & Ht & Hin'). by rewrite Ht. }
  pose proof (degree_sum_insert refs a (default ∅ (refs !! a) ∪ {[b]})) as H1.
  pose proof (degree_sum_insert (add_ref a b refs) b
                (default ∅ (add_ref a b refs !! b) ∪ {[a]})) as H2.
  fold (add_ref a b refs) in H1.
  fold (add_ref b a (add_ref a b refs)) in H2.
  assert (Hb' : add_ref a b refs !! b = refs !! b)
    by (rewrite lookup_add_ref; by destruct (decide (a = b))).
  rewrite Hb' in H2.
  case_bool_decide as Hin.
  - assert (a ∈ default ∅ (refs !! b)) as Hin' by by apply Hsym.
    replace (default ∅ (refs !! a) ∪ {[b]}) with (default ∅ (refs !! a)) in H1
      by set_solver.
    replace (default ∅ (refs !! b) ∪ {[a]}) with (default ∅ (refs !! b)) in H2
      by set_solver.
    lia.
  - assert (a ∉ default ∅ (refs !! b)) as Hin' by by rewrite <- Hsym.
    rewrite size_union, size_singleton in H1, H2 by set_solver. lia.
Qed.

(** The counters and the graph after any number of lines. *)
Lemma link_counters (known_verses known_canon : gset string)
    (lines : list string) (st : LinkState) :
  links_ok known_verses (refs_intermediate st) →
  Z.of_nat (degree_sum (refs_intermediate st)) = 2 * added_ref_pairs st →
  let st' := fold_left (process_line known_verses known_canon) lines st in
  Z.of_nat (degree_sum (refs_intermediate st')) = 2 * added_ref_pairs st' ∧
  processed_lines st' = processed_lines st + Z.of_nat (length lines) ∧
  skipped_lines st ≤ skipped_lines st' ∧
  unmatched_refs st ≤ unmatched_refs st' ∧
  added_ref_pairs st ≤ added_ref_pairs st' ∧
  (skipped_lines st' - skipped_lines st) + (unmatched_refs st' - unmatched_refs st)
    + (added_ref_pairs st' - added_ref_pairs st) ≤ Z.of_nat (length lines).
Proof.
  revert st. induction lines as [|l lines IH]; intros st Hok Hdeg.
  - simpl. lia.
  - cbn [fold_left length].
    assert (Hstep :
      let s1 := process_line known_verses known_canon st l in
      Z.of_nat (degree_sum (refs_intermediate s1)) = 2 * added_ref_pairs s1 ∧
      processed_lines s1 = processed_lines st + 1 ∧
      skipped_lines st ≤ skipped_lines s1 ∧
      unmatched_refs st ≤ unmatched_refs s1 ∧
      added_ref_pairs st ≤ added_ref_pairs s1 ∧
      (skipped_lines s1 - skipped_lines st) + (unmatched_refs s1 - unmatched_refs st)
        + (added_ref_pairs s1 - added_ref_pairs st) ≤ 1).
    { unfold process_line, skip_line.
      repeat (case_match; simpl; try lia);
        repeat match goal with
               | H : _ && _ = true |- _ => apply andb_true_iff in H as [? ?]
               | H : negb _ = true |- _ => apply negb_true_iff in H
               | H : String.eqb _ _ = false |- _ => apply String.eqb_neq in H
               end;
        erewrite degree_sum_link by eauto;
        match goal with H : bool_decide _ = _ |- _ => rewrite H end; lia. }
    destruct Hstep as (H1 & H2 & H3 & H4 & H5 & H6).
    destruct (IH (process_line known_verses known_canon st l)) as
      (K1 & K2 & K3 & K4 & K5 & K6); [by apply process_line_ok|done|].
    cbv zeta. lia.
Qed.

End counting.

(** X14: the statistics of the linking stage are exact: [processed_lines]
    is the number of lines of the file, [added_ref_pairs] is half the
    total number of neighbours recorded in the graph (each linked pair
    is counted once), and skipped, unmatched and newly linked lines
    together never exceed the lines read. *)
Theorem link_statistics (known_verses known_canon : gset string)
    (lines : list string) :
  let st := (link (Some lines) known_verses known_canon).1 in
  processed_lines st = Z.of_nat (length lines) ∧
  Z.of_nat (degree_sum (refs_intermediate st)) = 2 * added_ref_pairs st ∧
  0 ≤ skipped_lines st ∧ 0 ≤ unmatched_refs st ∧ 0 ≤ added_ref_pairs st ∧
  skipped_lines st + unmatched_refs st + added_ref_pairs st
    ≤ Z.of_nat (length lines).
Proof.
  simpl.
  destruct (link_counters known_verses known_canon lines initial_links)
    as (H1 & H2 & H3 & H4 & H5 & H6); [apply links_ok_empty|done|].
  simpl in *. repeat split; lia.
Qed.

(* ================================================================== *)
(** * Further properties of the whole run *)
(* ================================================================== *)




(** X16: a scripture document none of whose book elements passes the
    canon test ends the run with a [ValueError], whatever the other
    inputs are, once both documents were read and the book-name table
    is not empty. *)
Theorem no_admitted_book_is_fatal (inp : Inputs) (booknames_root root : Element) :
  booknames_source inp = Parsed booknames_root →
  usfx_source inp = Parsed root →
  admitted_codes (find_books root) = [] →
  main inp = Fatal ValueError.
Proof.
  intros Hbn Hroot Hnone. unfold main. rewrite Hbn, Hroot.
  case_bool_decide; [done|].
  pose proof (extract_meta_sublist (read_book_names booknames_root)
                (find_books root)) as Hsub.
  rewrite Hnone in Hsub. apply sublist_nil_r, fmap_nil_inv in Hsub.
  destruct (find_books root) as [|b books]; [done|].
  by rewrite Hsub.
Qed.

Lemma no_admitted_book_is_fatal_witness :
  main (Samples.inputs [Samples.book "TOB" [Samples.c "1"]] None)
  = Fatal ValueError.
Proof.
  apply (no_admitted_book_is_fatal _ Samples.booknames
           (Samples.usfx [Samples.book "TOB" [Samples.c "1"]])).
  - reflexivity.
  - reflexivity.
  - vm_compute. reflexivity.
Defined.

(** X17: step 5 loses nothing: the graph written has the keys of the
    intermediate graph, and each adjacency list holds exactly the
    members of its set, each once. *)
Theorem finalize_faithful (refs : gmap string (gset string)) :
  dom (finalize refs) = dom refs ∧
  ∀ a s, refs !! a = Some s →
    ∃ l, finalize refs !! a = Some l ∧
         list_to_set l = s ∧ length l = size s.
Proof.
  split.
  - unfold finalize. apply dom_fmap_L.
  - intros a s Hs. exists (sorted_list s). split; [|split].
    + apply lookup_finalize. eauto.
    + apply set_eq. intros x.
      by rewrite elem_of_list_to_set, elem_of_sorted_list.
    + unfold sorted_list. by rewrite merge_sort_Permutation.
Qed.

(** X18: comment lines and blank lines contribute nothing: a file made
    of such lines only yields an empty graph, and every line is counted
    as skipped. *)
Theorem comment_lines_ignored (known_verses known_canon : gset string)
    (lines : list string) :
  forallb is_comment_or_blank lines = true →
  let st := (link (Some lines) known_verses known_canon).1 in
  finalize (refs_intermediate st) = ∅ ∧
  skipped_lines st = Z.of_nat (length lines) ∧
  added_ref_pairs st = 0 ∧ unmatched_refs st = 0.
Proof.
  intros Hall. simpl.
  assert (H : ∀ st,
    let st' := fold_left (process_line known_verses known_canon) lines st in
    refs_intermediate st' = refs_intermediate st ∧
    skipped_lines st' = skipped_lines st + Z.of_nat (length lines) ∧
    added_ref_pairs st' = added_ref_pairs st ∧
    unmatched_refs st' = unmatched_refs st).
  { induction lines as [|l lines IH]; intros st;
      [simpl; repeat split; try done; lia|].
    cbn [forallb] in Hall. apply andb_true_iff in Hall as [Hl Hall].
    cbn [fold_left length]. destruct (IH Hall (process_line known_verses
      known_canon st l)) as (H1 & H2 & H3 & H4).
    cbv zeta. rewrite H1, H2, H3, H4.
    unfold process_line. unfold is_comment_or_blank in Hl. rewrite Hl.
    simpl. repeat split; try done; lia. }
  destruct (H initial_links) as (H1 & H2 & H3 & H4).
  rewrite H1, H2, H3, H4. simpl. split; [apply fmap_empty|].
  repeat split; lia.
Qed.

Lemma comment_lines_ignored_witness :
  let st := (link (Some ["# verses"; "   "; ""]) ∅ ∅).1 in
  finalize (refs_intermediate st) = ∅ ∧
  skipped_lines st = Z.of_nat (length ["# verses"; "   "; ""]) ∧
  added_ref_pairs st = 0 ∧ unmatched_refs st = 0.
Proof.
  apply (comment_lines_ignored ∅ ∅ ["# verses"; "   "; ""]).
  reflexivity.
Defined.

(* ================================================================== *)
(** * Numbers and their decimal form *)
(* ================================================================== *)

Section int_round_trip.
Import ReSpec.








End int_round_trip.


(* ================================================================== *)
(** * Citations of stored verses *)
(* ================================================================== *)

Section matcher_forward.
Import Re ReSpec.
Context {R : Type}.

Lemma star_greedy (p : ascii → bool) (k : string → option R)
    (w rest : string) (r : R) :
  all p w = true → head_in p rest = false → k rest = Some r →
  star p k (w +:+ rest) = Some r.
Proof.
  intros Hw Hrest Hk. induction w as [|c w IH].
  - rewrite app_nil_l. destruct rest as [|c s]; simpl in *; [done|].
    by rewrite Hrest.
  - simpl in Hw. apply andb_true_iff in Hw as [Hc Hw].
    rewrite app_cons. simpl. by rewrite Hc, (IH Hw).
Qed.

Lemma run_plus_greedy (p : ascii → bool) (w rest : string)
    (caps : gmap nat string) (k : string → gmap nat string → option R) (r : R) :
  all p w = true → w ≠ "" → head_in p rest = false →
  k rest caps = Some r →
  run (Plus p) (w +:+ rest) caps k = Some r.
Proof.
  intros Hw Hne Hrest Hk. destruct w as [|c w]; [done|].
  simpl in Hw. apply andb_true_iff in Hw as [Hc Hw].
  rewrite app_cons. unfold Plus. simpl. rewrite Hc.
  by apply star_greedy.
Qed.

Lemma run_star_greedy (p : ascii → bool) (w rest : string)
    (caps : gmap nat string) (k : string → gmap nat string → option R) (r : R) :
  all p w = true → head_in p rest = false →
  k rest caps = Some r →
  run (Star p) (w +:+ rest) caps k = Some r.
Proof. intros. simpl. by apply star_greedy. Qed.

Lemma run_seq (r1 r2 : re) (s : string) (caps : gmap nat string)
    (k : string → gmap nat string → option R) :
  run (r1 >>> r2) s caps k = run r1 s caps (λ s' caps', run r2 s' caps' k).
Proof. reflexivity. Qed.

Lemma run_group (n : nat) (r : re) (s : string) (caps : gmap nat string)
    (k : string → gmap nat string → option R) :
  run (Group n r) s caps k
  = run r s caps (λ s' caps', k s' (<[n := consumed s s']> caps')).
Proof. reflexivity. Qed.

Lemma run_opt_dot (rest : string) (caps : gmap nat string)
    (k : string → gmap nat string → option R) (r : R) :
  k rest caps = Some r →
  run (Opt (Lit ".")) (String "." rest) caps k = Some r.
Proof. intros Hk. simpl. by rewrite Hk. Qed.

Lemma run_chr_fail (p : ascii → bool) (c : ascii) (s : string)
    (caps : gmap nat string) (k : string → gmap nat string → option R) :
  p c = false → run (Chr p) (String c s) caps k = None.
Proof. intros Hc. simpl. by rewrite Hc. Qed.

Lemma run_dot (rest : string) (caps : gmap nat string)
    (k : string → gmap nat string → option R) (r : R) :
  k rest caps = Some r →
  run (Lit ".") (String "." rest) caps k = Some r.
Proof. by intros Hk. Qed.

End matcher_forward.

Section class_facts.
Import ReSpec.

Lemma head_in_app (p : ascii → bool) (w rest : string) :
  head_in p (w +:+ rest)
  = match w with EmptyString => head_in p rest | _ => head_in p w end.
Proof. by destruct w. Qed.

Lemma head_in_all (p q : ascii → bool) (w : string) :
  (∀ c, q c = true → p c = false) → all q w = true → head_in p w = false.
Proof.
  intros Hpq. destruct w as [|c w]; simpl; [done|].
  intros [Hc _]%andb_true_iff. by apply Hpq.
Qed.

Lemma digit_classes (c : ascii) :
  Py.is_digit c = true → Py.is_space c = false ∧ Py.is_alpha c = false.
Proof.
  unfold Py.is_digit, Py.is_space, Py.is_alpha, Py.is_lower, Py.is_upper.
  intros [H1%N.leb_le H2%N.leb_le]%andb_true_iff.
  split; rewrite orb_false_iff, !andb_false_iff, !N.leb_gt; lia.
Qed.

Lemma alpha_classes (c : ascii) :
  Py.is_alpha c = true → Py.is_space c = false ∧ Py.is_digit c = false.
Proof.
  unfold Py.is_digit, Py.is_space, Py.is_alpha, Py.is_lower, Py.is_upper.
  rewrite orb_true_iff, !andb_true_iff, !N.leb_le. intros H.
  split; rewrite ?orb_false_iff, !andb_false_iff, !N.leb_gt; lia.
Qed.

Lemma consumed_all (s : string) : Re.consumed s "" = s.
Proof.
  rewrite <- (app_nil_r s) at 1. apply consumed_app.
Qed.

End class_facts.

Section citation_match.
Import Re ReSpec.

Lemma match_citation (ws dg al D1 D2 T : string) :
  all Py.is_space ws = true →
  all Py.is_digit dg = true → all Py.is_alpha al = true → al ≠ "" →
  all Py.is_digit D1 = true → D1 ≠ "" →
  all Py.is_digit D2 = true → D2 ≠ "" →
  tail_accepted T →
  match_ verse_pattern
    (ws +:+ (dg +:+ al) +:+ "." +:+ D1 +:+ "." +:+ D2 +:+ T)
  = Some (<[3%nat := D2]> (<[2%nat := D1]> (<[1%nat := dg +:+ al]> ∅))).
Proof.
  intros Hws Hdg Hal Hal' HD1 HD1' HD2 HD2' [HT1 HT2].
  assert (Hsp_al : ∀ X, head_in Py.is_space (al +:+ X) = false).
  { intros X. rewrite head_in_app. destruct al; [done|].
    eapply head_in_all; [|exact Hal]. intros c Hc. by apply alpha_classes. }
  assert (Hdg_al : ∀ X, head_in Py.is_digit (al +:+ X) = false).
  { intros X. rewrite head_in_app. destruct al; [done|].
    eapply head_in_all; [|exact Hal]. intros c Hc. by apply alpha_classes. }
  assert (Hsp_code : ∀ X, head_in Py.is_space (dg +:+ al +:+ X) = false).
  { intros X. rewrite head_in_app. destruct dg eqn:Hd; [apply Hsp_al|].
    eapply head_in_all; [|exact Hdg]. intros c Hc. by apply digit_classes. }
  assert (Hsp_D1 : ∀ X, head_in Py.is_space (D1 +:+ X) = false).
  { intros X. rewrite head_in_app. destruct D1; [done|].
    eapply head_in_all; [|exact HD1]. intros c Hc. by apply digit_classes. }
  unfold match_, verse_pattern.
  rewrite (app_assoc dg al).
  rewrite run_seq. change (run Bol ?s ?c ?k) with (k s c). cbv beta.
  rewrite run_seq. apply run_star_greedy; [done|apply Hsp_code|].
  rewrite run_seq, run_group, run_seq.
  apply run_star_greedy; [done|apply Hdg_al|].
  rewrite run_seq. apply (run_star_greedy _ ""); [done|apply Hsp_al|].
  apply run_plus_greedy; [done..|].
  rewrite <- (app_assoc dg al), consumed_app.
  rewrite run_seq. apply run_opt_dot.
  rewrite run_seq. apply (run_star_greedy _ ""); [done|apply Hsp_D1|].
  rewrite run_seq, run_group. apply run_plus_greedy; [done..|].
  rewrite consumed_app.
  rewrite run_seq. apply run_dot.
  rewrite run_seq, run_group. apply run_plus_greedy; [done..|].
  rewrite consumed_app. apply HT2.
Qed.

Lemma space_not_dash (c : ascii) :
  Py.is_space c = true → Ascii.eqb "-" c = false.
Proof.
  intros Hc. destruct (Ascii.eqb_spec "-"%char c) as [<-|]; [|done].
  by vm_compute in Hc.
Qed.

Lemma end_accepted (ws : string) (caps : gmap nat string) :
  all Py.is_space ws = true →
  run (Star Py.is_space >>> Eol) ws caps (λ _ caps', Some caps') = Some caps.
Proof.
  intros Hws. rewrite <- (app_nil_r ws). rewrite run_seq.
  by apply run_star_greedy.
Qed.

Lemma spaces_not_digit (ws : string) :
  all Py.is_space ws = true → head_in Py.is_digit ws = false.
Proof.
  destruct ws as [|c ws]; simpl; [done|].
  intros [Hc _]%andb_true_iff.
  destruct (Py.is_digit c) eqn:Hd; [|done].
  apply digit_classes in Hd as [Hs _]. congruence.
Qed.

(** Trailing white space is accepted. *)
Lemma tail_spaces (ws : string) :
  all Py.is_space ws = true → tail_accepted ws.
Proof.
  intros Hws. split; [by apply spaces_not_digit|]. intros caps.
  rewrite run_seq. unfold Opt.
  assert (Hnone : ∀ k : string → gmap nat string → option (gmap nat string),
             run range_tail ws caps k = None).
  { intros k. destruct ws as [|c ws]; [done|]. simpl in Hws.
    apply andb_true_iff in Hws as [Hc _].
    unfold range_tail, Lit. rewrite run_seq.
    apply run_chr_fail. by apply space_not_dash. }
  cbn [run]. rewrite Hnone. by apply end_accepted.
Qed.

(** So is a dash, a number and trailing white space. *)
Lemma tail_range (D ws : string) :
  all Py.is_digit D = true → D ≠ "" → all Py.is_space ws = true →
  tail_accepted ("-" +:+ D +:+ ws).
Proof.
  intros HD HD' Hws. split; [done|]. intros caps.
  rewrite run_seq. unfold Opt.
  assert (Hsome : run range_tail ("-" +:+ D +:+ ws) caps
                    (λ s' caps', run (Star Py.is_space >>> Eol) s' caps'
                                     (λ _ caps'', Some caps''))
                  = Some caps).
  { unfold range_tail. rewrite run_seq.
    change (run (Lit "-") ("-" +:+ ?X) ?c ?k) with (k X c). cbv beta.
    rewrite run_seq. apply (run_star_greedy _ "").
    - done.
    - rewrite head_in_app. destruct D; [done|].
      eapply head_in_all; [|exact HD]. intros c Hc. by apply digit_classes.
    - cbn [run].
      rewrite (run_plus_greedy Py.is_digit D ws caps _ caps);
        [done|done|done|by apply spaces_not_digit|by apply end_accepted]. }
  cbn [run] in *. by rewrite Hsome.
Qed.

End citation_match.

Section citation_of_keys.
Import ReSpec.

Lemma take_drop_while (p : ascii → bool) (s : string) :
  take_while p s +:+ drop_while p s = s ∧ all p (take_while p s) = true.
Proof.
  induction s as [|c s [IH1 IH2]]; simpl; [done|].
  destruct (p c) eqn:Hc; [|done].
  rewrite app_cons, IH1. simpl. by rewrite Hc, IH2.
Qed.

Lemma canon_code_parts (code : string) :
  code ∈ PROTESTANT_CANON_CODES →
  ∃ dg al, code = dg +:+ al ∧
           all Py.is_digit dg = true ∧ all Py.is_alpha al = true ∧ al ≠ "" ∧
           Py.strip code = code.
Proof.
  unfold PROTESTANT_CANON_CODES. rewrite elem_of_list_to_set. intros Hin.
  assert (Hall : Forall (λ code : string,
             all Py.is_alpha (drop_while Py.is_digit code) = true ∧
             drop_while Py.is_digit code ≠ "" ∧
             Py.strip code = code) canon_literal).
  { apply (bool_decide_unpack _). vm_compute. exact I. }
  rewrite Forall_forall in Hall. destruct (Hall code Hin) as (H1 & H2 & H3).
  destruct (take_drop_while Py.is_digit code) as [H4 H5].
  exists (take_while Py.is_digit code), (drop_while Py.is_digit code). done.
Qed.

Lemma citation_standardizes_with (ws T abbr : string) (c n : Z)
    (known : gset string) :
  all Py.is_space ws = true → tail_accepted T →
  abbr ∈ known → known ⊆ PROTESTANT_CANON_CODES → 0 < c → 0 < n →
  standardize_verse_ref (ws +:+ citation_of abbr c n +:+ T) ABBR_MAP known
  = Some (verse_key abbr c n).
Proof.
  intros Hws HT Hin Hsub Hc Hn.
  destruct (canon_code_parts abbr (Hsub _ Hin))
    as (dg & al & Hcode & Hdg & Hal & Hal' & Hstrip).
  assert (Hne : ∀ z, 0 < z → Py.str_of_int z ≠ "").
  { intros [|p|p] Hz; try lia. rewrite str_of_int_pos.
    pose proof (DecimalPos.Unsigned.to_uint_nonnil p).
    by destruct (Pos.to_uint p). }
  unfold standardize_verse_ref, citation_of, verse_key.
  rewrite !app_assoc.
  rewrite Hcode at 1.
  rewrite match_citation; auto using str_of_int_digits.
  unfold Re.group.
  rewrite lookup_insert_eq, !lookup_insert_ne, !lookup_insert_eq by done.
  simpl. rewrite <- Hcode, Hstrip.
  unfold resolve_book.
  destruct (ABBR_MAP !! abbr) as [ca|] eqn:Hca.
  - destruct (abbr_map_consistent abbr ca Hca) as (Ht & _ & Heq & _).
    rewrite <- (Heq (Hsub _ Hin)) in *.
    by rewrite Ht, bool_decide_eq_true_2.
  - by rewrite bool_decide_eq_true_2.
Qed.

Lemma citation_standardizes (abbr : string) (c n : Z) (known : gset string) :
  abbr ∈ known → known ⊆ PROTESTANT_CANON_CODES → 0 < c → 0 < n →
  standardize_verse_ref (citation_of abbr c n) ABBR_MAP known
  = Some (verse_key abbr c n).
Proof.
  intros. rewrite <- (app_nil_r (citation_of abbr c n)).
  apply (citation_standardizes_with "" ""); auto. by apply tail_spaces.
Qed.

End citation_of_keys.

(** X20: a verse can be cited by its own code and numbers: for a known
    canon code and positive chapter and verse numbers, the citation
    ["<code>.<chapter>.<verse>"] standardizes to the key the extractor
    uses for that verse. *)
Theorem citation_round_trip (abbr : string) (c n : Z) (known : gset string) :
  abbr ∈ known → known ⊆ PROTESTANT_CANON_CODES → 0 < c → 0 < n →
  standardize_verse_ref (citation_of abbr c n) ABBR_MAP known
  = Some (verse_key abbr c n).
Proof. apply citation_standardizes. Qed.

Lemma citation_round_trip_witness :
  standardize_verse_ref (citation_of "1CO" 13 4) ABBR_MAP PROTESTANT_CANON_CODES
  = Some (verse_key "1CO" 13 4).
Proof.
  apply (citation_round_trip "1CO" 13 4 PROTESTANT_CANON_CODES).
  - apply canon_member. vm_compute. reflexivity.
  - reflexivity.
  - reflexivity.
  - reflexivity.
Defined.

(** X21: the extractor and the linker agree on verse ids: every key of
    the verse text mapping is the standardized form, under the set of
    known codes the linker is given, of the citation built from its own
    code and numbers; so every stored verse can be named in the
    cross-reference file. *)
Theorem stored_keys_are_citable (names : gmap string string)
    (books : list Element) (k : string) :
  is_Some (text_dict (extract names books) !! k) →
  ∃ abbr c n,
    k = verse_key abbr c n ∧
    standardize_verse_ref (citation_of abbr c n) ABBR_MAP
      (list_to_set (book_order (extract names books))) = Some k.
Proof.
  intros [v Hv].
  destruct (extract_entries names books k v Hv)
    as [(abbr & c & n & -> & Habbr & Hc & Hn) _].
  exists abbr, c, n. split; [done|].
  apply citation_standardizes; [|apply extract_known_canon|done..].
  rewrite extract_book_order. by apply elem_of_list_to_set.
Qed.

Lemma stored_keys_are_citable_witness :
  ∃ abbr c n,
    "GEN 1:2" = verse_key abbr c n ∧
    standardize_verse_ref (citation_of abbr c n) ABBR_MAP
      (list_to_set (book_order
         (extract (read_book_names Samples.booknames) [Samples.genesis])))
    = Some "GEN 1:2".
Proof.
  apply (stored_keys_are_citable (read_book_names Samples.booknames)
           [Samples.genesis] "GEN 1:2").
  vm_compute. eauto.
Defined.

(** X22: white space around a citation and a trailing numeric range do
    not change its verse id: the citation of a verse still standardizes
    to that verse's key when it is surrounded by white space, and when
    it is followed by a dash and a number (only the start of the range
    is kept). *)
Theorem citation_tolerates_space_and_range (ws1 ws2 abbr : string)
    (c n m : Z) (known : gset string) :
  ReSpec.all Py.is_space ws1 = true → ReSpec.all Py.is_space ws2 = true →
  abbr ∈ known → known ⊆ PROTESTANT_CANON_CODES →
  0 < c → 0 < n → 0 < m →
  standardize_verse_ref (ws1 +:+ citation_of abbr c n +:+ ws2) ABBR_MAP known
  = Some (verse_key abbr c n) ∧
  standardize_verse_ref
    (ws1 +:+ citation_of abbr c n +:+ "-" +:+ Py.str_of_int m +:+ ws2)
    ABBR_MAP known
  = Some (verse_key abbr c n).
Proof.
  intros Hws1 Hws2 Hin Hsub Hc Hn Hm. split.
  - apply citation_standardizes_with; auto. by apply tail_spaces.
  - apply citation_standardizes_with; auto.
    apply tail_range; [by apply str_of_int_digits| |done].
    destruct m as [|p|p]; try lia. rewrite str_of_int_pos.
    pose proof (DecimalPos.Unsigned.to_uint_nonnil p).
    by destruct (Pos.to_uint p).
Qed.

Lemma citation_tolerates_space_and_range_witness :
  standardize_verse_ref (" " +:+ citation_of "ROM" 8 28 +:+ String "010" "")
    ABBR_MAP PROTESTANT_CANON_CODES
  = Some (verse_key "ROM" 8 28) ∧
  standardize_verse_ref
    (" " +:+ citation_of "ROM" 8 28 +:+ "-" +:+ Py.str_of_int 30
       +:+ String "010" "")
    ABBR_MAP PROTESTANT_CANON_CODES
  = Some (verse_key "ROM" 8 28).
Proof.
  apply (citation_tolerates_space_and_range " " (String "010" "") "ROM" 8 28 30
           PROTESTANT_CANON_CODES); reflexivity.
Defined.

(** X23: every entry of the book-name table comes from a book element
    of the book-name document that carries that code and that short
    name, both non-empty. *)
Theorem name_table_sound (booknames_root : Element) (code name : string) :
  read_book_names booknames_root !! code = Some name →
  code ≠ "" ∧ name ≠ "" ∧
  ∃ book_elem,
    book_elem ∈ findall_descendants "book" booknames_root ∧
    get "code" book_elem = Some code ∧ get "short" book_elem = Some name.
Proof.
  unfold read_book_names.
  generalize (findall_descendants "book" booknames_root). intros l.
  assert (H : ∀ (m : gmap string string),
    fold_left (λ m book_elem,
        match get "code" book_elem, get "short" book_elem with
        | Some code, Some short_name =>
            if Py.truthy code && Py.truthy short_name
            then <[code := short_name]> m else m
        | _, _ => m
        end) l m !! code = Some name →
    m !! code = Some name ∨
    (code ≠ "" ∧ name ≠ "" ∧
     ∃ book_elem, book_elem ∈ l ∧ get "code" book_elem = Some code ∧
                  get "short" book_elem = Some name)).
  { induction l as [|b l IH]; intros m; simpl; [auto|].
    intros [Hm|(H1 & H2 & e & He & H3 & H4)]%IH.
    - destruct (get "code" b) as [cd|] eqn:Hcd; [|by left].
      destruct (get "short" b) as [sn|] eqn:Hsn; [|by left].
      destruct (Py.truthy cd && Py.truthy sn) eqn:Ht; [|by left].
      apply andb_true_iff in Ht as [Ht1 Ht2].
      destruct (decide (cd = code)) as [->|Hne].
      + rewrite lookup_insert_eq in Hm. injection Hm as ->.
        right. repeat split.
        * intros ->. done.
        * intros ->. done.
        * exists b. repeat split; [left|done..].
      + rewrite lookup_insert_ne in Hm by done. by left.
    - right. repeat split; [done..|]. exists e. repeat split; [by right|done..]. }
  intros [Hm|?]%H; [by rewrite lookup_empty in Hm | done].
Qed.

Lemma name_table_sound_witness :
  "GEN" ≠ "" ∧ "Genesis" ≠ "" ∧
  ∃ book_elem,
    book_elem ∈ findall_descendants "book" Samples.booknames ∧
    get "code" book_elem = Some "GEN" ∧ get "short" book_elem = Some "Genesis".
Proof.
  apply (name_table_sound Samples.booknames "GEN" "Genesis").
  vm_compute. reflexivity.
Defined.
